(** * notebook_utils: a shallow embedding of the shared helper module

    The helper notebook [notebook_utils] of the OpenVINO notebooks holds a
    handful of independent functions: file download, pixel conversion,
    rendering of a segmentation map through a colormap, and availability
    checks that show an alert.  Each function is embedded below next to the
    Python text it comes from; the theorems follow the definitions. *)

From Stdlib Require Import ZArith Lia.
From Stdlib Require SpecFloat.
From Stdlib.Strings Require Import Ascii Byte.
From stdpp Require Import base list strings pretty.

Set Default Proof Using "Type".

(** ** Exceptions and results *)

(** The exception classes that the embedded code can raise or let through. *)
Inductive exn : Type :=
  | ValueError
  | IndexError
  | Exception (msg : string)
  | HTTPError (code : Z) (msg : string)
  | URLError
  | ContentTooShortError
  | FileExistsError
  | FileNotFoundError
  | NotADirectoryError
  | IsADirectoryError
  | cv2_error.

(** A Python call either returns a value or raises. *)
Inductive outcome (A : Type) : Type :=
  | Return (a : A)
  | Raise (e : exn).
Arguments Return {A} a.
Arguments Raise {A} e.

Definition obind {A B} (m : outcome A) (k : A → outcome B) : outcome B :=
  match m with
  | Return a => k a
  | Raise e => Raise e
  end.

Global Instance outcome_ret : MRet outcome := λ A a, Return a.
Global Instance outcome_bind : MBind outcome := λ A B k m, obind m k.

(** ** numpy arrays *)

(** An [ndarray] is its shape and its elements in row-major order. *)
Record ndarray (A : Type) : Type := mk_ndarray {
  shape : list nat;
  data : list A
}.
Arguments mk_ndarray {A} shape data.
Arguments shape {A} _.
Arguments data {A} _.

Definition size_of (sh : list nat) : nat := foldr Nat.mul 1 sh.

(** numpy only builds arrays whose element count is the product of the shape. *)
Definition wf_ndarray {A} (a : ndarray A) : Prop :=
  length (data a) = size_of (shape a).

Definition ndim {A} (a : ndarray A) : nat := length (shape a).

(** [a.shape[i]]: indexing the shape tuple raises IndexError out of range. *)
Definition shape_at {A} (a : ndarray A) (i : nat) : outcome nat :=
  match shape a !! i with
  | Some d => Return d
  | None => Raise IndexError
  end.

(** ** Pixel data: normalize_minmax, to_rgb, to_bgr *)

Module Images.

Local Open Scope Z_scope.

(** *** Element types

    A numpy array carries the type of its elements.  The integer types
    compute modulo their width; the float types follow IEEE 754. *)

Inductive int_dtype : Type :=
  | int8 | int16 | int32 | int64
  | uint8 | uint16 | uint32 | uint64.

Inductive dtype : Type :=
  | bool_
  | Int (i : int_dtype)
  | float16 | float32 | float64.

Definition bits (dt : int_dtype) : Z :=
  match dt with
  | int8 | uint8 => 8
  | int16 | uint16 => 16
  | int32 | uint32 => 32
  | int64 | uint64 => 64
  end.

Definition signed (dt : int_dtype) : bool :=
  match dt with
  | int8 | int16 | int32 | int64 => true
  | uint8 | uint16 | uint32 | uint64 => false
  end.

Definition min_value (dt : int_dtype) : Z :=
  if signed dt then - 2 ^ (bits dt - 1) else 0.

Definition max_value (dt : int_dtype) : Z :=
  if signed dt then 2 ^ (bits dt - 1) - 1 else 2 ^ bits dt - 1.

(** The values an array of the type can hold. *)
Definition in_range (dt : int_dtype) (z : Z) : Prop :=
  min_value dt ≤ z ≤ max_value dt.

(** What integer arithmetic in the type makes of the exact result [z]:
    the value of the same residue modulo [2 ^ bits] within the range. *)
Definition wrap (dt : int_dtype) (z : Z) : Z :=
  (z - min_value dt) mod 2 ^ bits dt + min_value dt.

(** *** float64

    Values of numpy's float64 are IEEE 754 binary64 numbers, taken from the
    specification of floating-point arithmetic of the Standard Library
    (precision 53, exponents up to 1024, rounding to nearest even). *)

Definition f64_of_Z (z : Z) : SpecFloat.spec_float :=
  SpecFloat.binary_normalize 53 1024 z 0 false.

Definition f64_div (x y : SpecFloat.spec_float) : SpecFloat.spec_float :=
  SpecFloat.SFdiv 53 1024 x y.

(** [x <= y] on float64 values *)
Definition f64_leb (x y : SpecFloat.spec_float) : bool := SpecFloat.SFleb x y.

Definition f64_zero : SpecFloat.spec_float := SpecFloat.S754_zero false.

Definition f64_one : SpecFloat.spec_float :=
  SpecFloat.S754_finite false 4503599627370496 (-52).

(** *** normalize_minmax *)

(** [data.max()] and [data.min()]: numpy refuses a zero-size array with a
    ValueError ("zero-size array to reduction operation"). *)
Definition amax (a : ndarray Z) : outcome Z :=
  match data a with
  | [] => Raise ValueError
  | x :: xs => Return (foldl Z.max x xs)
  end.

Definition amin (a : ndarray Z) : outcome Z :=
  match data a with
  | [] => Raise ValueError
  | x :: xs => Return (foldl Z.min x xs)
  end.

(** <<
    def normalize_minmax(data):
        if data.max() == data.min():
            raise ValueError(...)
        return (data - data.min()) / (data.max() - data.min())
    >>
    on an array of an integer type [dt], as the arrays of decoded images
    and of the notebook's own check ([np.random.randint]) are.  Both
    subtractions are computed in [dt] and wrap around; the true division
    converts both operands to float64 and divides there.  Arrays of a float
    type, whose subtractions round, are not covered. *)
Definition normalize_minmax (dt : int_dtype) (a : ndarray Z) :
    outcome (ndarray SpecFloat.spec_float) :=
  mx ← amax a;
  mn ← amin a;
  if decide (mx = mn) then Raise ValueError
  else
    mn' ← amin a;
    mx' ← amax a;
    mn'' ← amin a;
    let numerator := map (λ x, wrap dt (x - mn')) (data a) in
    let denominator := wrap dt (mx' - mn'') in
    Return (mk_ndarray (shape a)
              (map (λ n, f64_div (f64_of_Z n) (f64_of_Z denominator)) numerator)).

(** Specification-side notions for [normalize_minmax]. *)
Definition is_max (d : list Z) (m : Z) : Prop := m ∈ d ∧ ∀ x, x ∈ d → x ≤ m.
Definition is_min (d : list Z) (m : Z) : Prop := m ∈ d ∧ ∀ x, x ∈ d → m ≤ x.

(** *** to_rgb, to_bgr *)

(** The two conversion codes used by the helpers.  In OpenCV both name the
    same operation. *)
Inductive ColorConversionCodes := COLOR_BGR2RGB | COLOR_RGB2BGR.

(** The element types [cv2.cvtColor] converts: 8-bit and 16-bit unsigned
    integers and 32-bit floats. *)
Definition cvt_depth (dt : dtype) : bool :=
  match dt with
  | Int uint8 | Int uint16 | float32 => true
  | _ => false
  end.

(** The elements of a three-channel image in row-major order, with the
    first and the third channel of every pixel exchanged. *)
Fixpoint swap_rb3 {A} (d : list A) : list A :=
  match d with
  | c0 :: c1 :: c2 :: rest => c2 :: c1 :: c0 :: swap_rb3 rest
  | _ => []
  end.

(** The same for a four-channel image, whose fourth channel is dropped. *)
Fixpoint swap_rb4 {A} (d : list A) : list A :=
  match d with
  | c0 :: c1 :: c2 :: _ :: rest => c2 :: c1 :: c0 :: swap_rb4 rest
  | _ => []
  end.

(** [cv2.cvtColor(src, code)] for the two codes above, on an array of
    element type [dt].  OpenCV takes a three-dimensional array as an image
    with the last dimension as channels, and any other array as an image
    of one channel.  It raises cv2.error for an element type it does not
    convert, for an image without pixels, and for a number of channels
    other than 3 or 4; the result has three channels. *)
Definition cvtColor {A} (dt : dtype) (src : ndarray A) (code : ColorConversionCodes) :
    outcome (ndarray A) :=
  if negb (cvt_depth dt) then Raise cv2_error
  else
    match shape src with
    | [h; w; scn] =>
        if decide (h = 0 ∨ w = 0)%nat then Raise cv2_error
        else
          match scn, code with
          | 3%nat, (COLOR_BGR2RGB | COLOR_RGB2BGR) =>
              Return (mk_ndarray [h; w; 3%nat] (swap_rb3 (data src)))
          | 4%nat, (COLOR_BGR2RGB | COLOR_RGB2BGR) =>
              Return (mk_ndarray [h; w; 3%nat] (swap_rb4 (data src)))
          | _, _ => Raise cv2_error
          end
    | _ => Raise cv2_error
    end.

(** <<
    def to_rgb(image_data):  return cv2.cvtColor(image_data, cv2.COLOR_BGR2RGB)
    def to_bgr(image_data):  return cv2.cvtColor(image_data, cv2.COLOR_RGB2BGR)
    >> *)
Definition to_rgb {A} (dt : dtype) (image_data : ndarray A) : outcome (ndarray A) :=
  cvtColor dt image_data COLOR_BGR2RGB.

Definition to_bgr {A} (dt : dtype) (image_data : ndarray A) : outcome (ndarray A) :=
  cvtColor dt image_data COLOR_RGB2BGR.

End Images.

(** ** Segmentation: labels, colormaps and rendering *)

Module Segmentation.

Local Open Scope Z_scope.

(** An RGB colour, as the tuple written in a [Label]. *)
Definition rgb : Type := Z * Z * Z.

(** <<
    class Label(NamedTuple):
        index: int
        color: Tuple
        name: Optional[str] = None
    >> *)
Record Label : Type := mk_Label {
  index : Z;
  color : rgb;
  name : option string
}.

(** <<
    class SegmentationMap(NamedTuple):
        labels: List
    >> *)
Record SegmentationMap : Type := mk_SegmentationMap {
  labels : list Label
}.

(** A colormap is a two-dimensional array with one colour per row; it is
    kept as the list of its rows. *)
Definition colormap_t : Type := list rgb.

(** [def get_colormap(self): return np.array([label.color for label in self.labels])] *)
Definition get_colormap (self : SegmentationMap) : colormap_t :=
  map color (labels self).

(** Python truthiness of an optional name: [None] and the empty string are
    falsy. *)
Definition truthy (n : option string) : bool :=
  match n with
  | None => false
  | Some s => negb (String.eqb s EmptyString)
  end.

(** <<
    def get_labels(self):
        labelnames = [label.name for label in self.labels]
        if any(labelnames):
            return labelnames
        else:
            return None
    >> *)
Definition get_labels (self : SegmentationMap) : option (list (option string)) :=
  let labelnames := map name (labels self) in
  if existsb truthy labelnames then Some labelnames else None.

(** [a[i]] on the first axis of an array (or on a list) with an integer:
    negative indices count from the end, anything else out of range raises
    IndexError. *)
Definition getitem {A} (a : list A) (i : Z) : outcome A :=
  let n := Z.of_nat (length a) in
  let k := if decide (i < 0) then n + i else i in
  if decide (0 ≤ k < n) then
    match a !! Z.to_nat k with
    | Some x => Return x
    | None => Raise IndexError
    end
  else Raise IndexError.

Definition cityscape_labels : list Label := [
  mk_Label 0 (128, 64, 128) (Some "road"%string);
  mk_Label 1 (244, 35, 232) (Some "sidewalk"%string);
  mk_Label 2 (70, 70, 70) (Some "building"%string);
  mk_Label 3 (102, 102, 156) (Some "wall"%string);
  mk_Label 4 (190, 153, 153) (Some "fence"%string);
  mk_Label 5 (153, 153, 153) (Some "pole"%string);
  mk_Label 6 (250, 170, 30) (Some "traffic light"%string);
  mk_Label 7 (220, 220, 0) (Some "traffic sign"%string);
  mk_Label 8 (107, 142, 35) (Some "vegetation"%string);
  mk_Label 9 (152, 251, 152) (Some "terrain"%string);
  mk_Label 10 (70, 130, 180) (Some "sky"%string);
  mk_Label 11 (220, 20, 60) (Some "person"%string);
  mk_Label 12 (255, 0, 0) (Some "rider"%string);
  mk_Label 13 (0, 0, 142) (Some "car"%string);
  mk_Label 14 (0, 0, 70) (Some "truck"%string);
  mk_Label 15 (0, 60, 100) (Some "bus"%string);
  mk_Label 16 (0, 80, 100) (Some "train"%string);
  mk_Label 17 (0, 0, 230) (Some "motorcycle"%string);
  mk_Label 18 (119, 11, 32) (Some "bicycle"%string);
  mk_Label 19 (255, 255, 255) (Some "background"%string)
].

Definition CityScapesSegmentation : SegmentationMap :=
  mk_SegmentationMap cityscape_labels.

Definition binary_labels : list Label := [
  mk_Label 0 (255, 255, 255) (Some "background"%string);
  mk_Label 1 (0, 0, 0) (Some "foreground"%string)
].

Definition BinarySegmentation : SegmentationMap :=
  mk_SegmentationMap binary_labels.

(** *** The OpenCV contour calls

    [cv2.findContours] and [cv2.drawContours] belong to OpenCV, not to the
    notebooks.  The helper only ever draws all contours it has just found,
    filled ([contourIdx=-1], [thickness=cv2.FILLED]); what that pair does
    to the mask is determined by the area the contours enclose, so a found
    contour set is represented by that area, one boolean per pixel in
    row-major order. *)

Inductive RetrievalModes := RETR_EXTERNAL | RETR_TREE.

Definition Contours : Type := list bool.

(** The view OpenCV takes of an array handed over as a single-channel
    image: two-dimensional, or three-dimensional with one channel. *)
Definition as_gray (image : ndarray Z) : outcome (nat * nat * list Z) :=
  match shape image with
  | [h; w] => Return (h, w, data image)
  | [h; w; 1%nat] => Return (h, w, data image)
  | _ => Raise cv2_error
  end.

Definition at2 (h w : nat) (g : list bool) (i j : Z) : bool :=
  if decide (0 ≤ i < Z.of_nat h ∧ 0 ≤ j < Z.of_nat w)
  then default false (g !! Z.to_nat (i * Z.of_nat w + j))
  else false.

(** One round of growing the set of background pixels that reach the
    outside of the image through 4-connected background. *)
Definition outside_step (h w : nat) (fg out : list bool) : list bool :=
  imap (λ k (b : bool),
    let i := Z.of_nat k / Z.of_nat w in
    let j := Z.of_nat k mod Z.of_nat w in
    negb b &&
      (bool_decide (i = 0) || bool_decide (i = Z.of_nat h - 1)
       || bool_decide (j = 0) || bool_decide (j = Z.of_nat w - 1)
       || at2 h w out (i - 1) j || at2 h w out (i + 1) j
       || at2 h w out i (j - 1) || at2 h w out i (j + 1))) fg.

Fixpoint outside_iter (n : nat) (h w : nat) (fg out : list bool) : list bool :=
  match n with
  | O => out
  | S n' => outside_iter n' h w fg (outside_step h w fg out)
  end.

(** The area inside the outermost contours: every pixel that is not
    background connected to the outside. *)
Definition fill_external (h w : nat) (fg : list bool) : list bool :=
  map negb (outside_iter (length fg) h w fg (map (λ _, false) fg)).

(** [cv2.findContours(image, mode, cv2.CHAIN_APPROX_SIMPLE)].  With
    [RETR_TREE] all borders are returned, those of holes included, and
    filling them together covers the non-zero pixels; with [RETR_EXTERNAL]
    only the outermost borders are, and filling covers the holes too. *)
Definition findContours (image : ndarray Z) (mode : RetrievalModes) : outcome Contours :=
  '(h, w, px) ← as_gray image;
  let fg := map (λ v, bool_decide (v ≠ 0)) px in
  Return match mode with
         | RETR_TREE => fg
         | RETR_EXTERNAL => fill_external h w fg
         end.

(** [cvRound] on the double that holds an integer colour component: the
    component itself when it fits a signed 32-bit integer; outside that
    range the conversion instruction of x86-64 gives the smallest 32-bit
    integer. *)
Definition cvRound (v : Z) : Z :=
  if decide (- 2 ^ 31 ≤ v < 2 ^ 31) then v else - 2 ^ 31.

(** Conversion of a colour component to an 8-bit channel value: OpenCV
    keeps the colour as doubles, rounds each component to a 32-bit integer
    and clips that to 0..255.  A component of [2 ^ 31] or more therefore
    comes out as 0, not as 255. *)
Definition saturate_u8 (v : Z) : Z := Z.max 0 (Z.min 255 (cvRound v)).

Definition channel (c : rgb) (k : nat) : Z :=
  match k with
  | O => c.1.1
  | 1%nat => c.1.2
  | _ => c.2
  end.

(** Filling the area with a colour on a three-channel 8-bit [mask]: the
    pixels of the area take the colour, the others keep theirs. *)
Definition paint (mask : ndarray Z) (contours : Contours) (c : rgb) : ndarray Z :=
  mk_ndarray (shape mask)
    (imap (λ k v, if default false (contours !! (k / 3)%nat)
                  then saturate_u8 (channel c (k mod 3)%nat) else v) (data mask)).

(** [cv2.drawContours(mask, contours, contourIdx=-1, color=..., thickness=cv2.FILLED)]
    on a three-channel 8-bit [mask].  OpenCV refuses an image without
    pixels (no rows or no columns) with cv2.error, whatever the contours;
    otherwise the area is filled.  The mask is updated in place; the
    updated array is returned here. *)
Definition drawContours (mask : ndarray Z) (contours : Contours) (c : rgb) :
    outcome (ndarray Z) :=
  if decide (size_of (shape mask) = 0%nat) then Raise cv2_error
  else Return (paint mask contours c).

(** *** segmentation_map_to_image *)

(** [len(np.unique(result))] *)
Definition n_unique (a : ndarray Z) : nat := length (remove_dups (data a)).

(** [result.squeeze(0)] *)
Definition squeeze0 {A} (a : ndarray A) : outcome (ndarray A) :=
  match shape a with
  | 1%nat :: sh => Return (mk_ndarray sh (data a))
  | _ => Raise ValueError
  end.

(** [result.astype(np.uint8)] on integers *)
Definition astype_uint8 (a : ndarray Z) : ndarray Z :=
  mk_ndarray (shape a) (map (λ v, v mod 256) (data a)).

(** [np.zeros((h, w, 3), dtype=np.uint8)] *)
Definition zeros3 (h w : nat) : ndarray Z :=
  mk_ndarray [h; w; 3%nat] (replicate (h * w * 3) 0).

(** [(result == label_index).astype(np.uint8) * 255] *)
Definition label_index_map (result : ndarray Z) (label_index : nat) : ndarray Z :=
  mk_ndarray (shape result)
    (map (λ v, if decide (v = Z.of_nat label_index) then 255 else 0) (data result)).

(** The body of [for label_index, color in enumerate(colormap)], from
    [label_index] on. *)
Fixpoint draw_labels (contour_mode : RetrievalModes) (result : ndarray Z)
    (label_index : nat) (colors : list rgb) (mask : ndarray Z) : outcome (ndarray Z) :=
  match colors with
  | [] => Return mask
  | c :: rest =>
      contours ← findContours (label_index_map result label_index) contour_mode;
      mask ← drawContours mask contours c;
      draw_labels contour_mode result (S label_index) rest mask
  end.

(** <<
    def segmentation_map_to_image(result, colormap, remove_holes=False):
        if len(result.shape) != 2 and result.shape[0] != 1:
            raise ValueError(f"Expected result with shape (H,W) or (1,H,W), ...")
        if len(np.unique(result)) > colormap.shape[0]:
            raise ValueError(f"Expected max {colormap[0]} classes in result, ...")
        elif result.shape[0] == 1:
            result = result.squeeze(0)
        result = result.astype(np.uint8)
        contour_mode = cv2.RETR_EXTERNAL if remove_holes else cv2.RETR_TREE
        mask = np.zeros((result.shape[0], result.shape[1], 3), dtype=np.uint8)
        for label_index, color in enumerate(colormap):
            label_index_map = result == label_index
            label_index_map = label_index_map.astype(np.uint8) * 255
            contours, hierarchies = cv2.findContours(
                label_index_map, contour_mode, cv2.CHAIN_APPROX_SIMPLE)
            cv2.drawContours(mask, contours, contourIdx=-1,
                             color=color.tolist(), thickness=cv2.FILLED)
        return mask
    >>
    [and] evaluates [result.shape[0]] only when the rank is not 2, and the
    message of the second ValueError is formatted, [colormap[0]] included,
    before the exception is built. *)
Definition segmentation_map_to_image (result : ndarray Z) (colormap : colormap_t)
    (remove_holes : bool) : outcome (ndarray Z) :=
  bad_shape ← (if decide (ndim result ≠ 2%nat)
               then d0 ← shape_at result 0; Return (bool_decide (d0 ≠ 1%nat))
               else Return false);
  if (bad_shape : bool) then Raise ValueError
  else
    result ← (if decide (length colormap < n_unique result)%nat
              then _ ← getitem colormap 0; Raise ValueError
              else d0 ← shape_at result 0;
                   if decide (d0 = 1%nat) then squeeze0 result else Return result);
    let result := astype_uint8 result in
    let contour_mode := if remove_holes then RETR_EXTERNAL else RETR_TREE in
    h ← shape_at result 0;
    w ← shape_at result 1;
    draw_labels contour_mode result 0 colormap (zeros3 h w).

(** The pixel of a three-channel array at row [i] and column [j]. *)
Definition pixel (w : nat) (a : ndarray Z) (i j : nat) : option rgb :=
  let k := (3 * (i * w + j))%nat in
  c0 ← data a !! k; c1 ← data a !! S k; c2 ← data a !! S (S k); Some (c0, c1, c2).

End Segmentation.

(** ** Files: download_file and download_ir_model *)

Module Files.

Local Open Scope string_scope.

(** *** pathlib *)

(** A pure POSIX path: its root ([""], ["/"] or ["//"]) and its
    components.  [parts] is the root, when there is one, followed by the
    components. *)
Record Path : Type := mk_Path {
  root : string;
  comps : list string
}.

Fixpoint split_slash (s : string) : list string :=
  match s with
  | EmptyString => [EmptyString]
  | String c s' =>
      if Ascii.eqb c "/"%char then EmptyString :: split_slash s'
      else match split_slash s' with
           | [] => [String c EmptyString]
           | x :: xs => String c x :: xs
           end
  end.

Definition parse_root (s : string) : string :=
  match s with
  | String "/" (String "/" (String "/" _)) => "/"
  | String "/" (String "/" _) => "//"
  | String "/" _ => "/"
  | _ => ""
  end.

(** [Path(s)]: empty and ["."] components vanish, [".."] stays. *)
Definition Path_of (s : string) : Path :=
  mk_Path (parse_root s)
    (filter (λ c, c ≠ "" ∧ c ≠ ".") (split_slash s)).

Definition parts (p : Path) : list string :=
  if decide (root p = "") then comps p else root p :: comps p.

(** [p.name] *)
Definition name (p : Path) : string := default "" (last (comps p)).

(** [p / q] *)
Definition joinpath (p q : Path) : Path :=
  if decide (root q = "") then mk_Path (root p) (comps p ++ comps q) else q.

Fixpoint join_slash (cs : list string) : string :=
  match cs with
  | [] => ""
  | [c] => c
  | c :: rest => c +:+ "/" +:+ join_slash rest
  end.

(** [str(p)] *)
Definition str (p : Path) : string :=
  match root p, comps p with
  | EmptyString, [] => "."
  | r, cs => r +:+ join_slash cs
  end.

(** *** The world outside: the remote hosts and the local file system *)

Inductive node : Type :=
  | File (content : list Byte.byte)
  | Dir.

(** What [urlopen] obtains for a URL: the file name announced in the
    Content-Disposition header ([info().get_filename()]), the
    Content-Length header read as a number, and the body. *)
Record Response : Type := mk_Response {
  get_filename : option string;
  content_length : option Z;
  body : list Byte.byte
}.

Inductive reply : Type :=
  | Responds (r : Response)
  | FailsHTTP (code : Z) (msg : string)
  | Unreachable.

Inductive event : Type :=
  | Opened (url : string)
  | Retrieved (url : string) (target : list string)
  | Printed (text : string).

(** The file system maps absolute, normalized component lists to nodes;
    the root directory is always there.  [urlparse_path] stands for
    [urllib.parse.urlparse(url).path], [remote] for the hosts. *)
Record World : Type := mk_World {
  urlparse_path : string → string;
  remote : string → reply;
  cwd : list string;
  fs : list string → option node;
  log : list event
}.

Definition with_fs (w : World) (f : list string → option node) : World :=
  mk_World (urlparse_path w) (remote w) (cwd w) f (log w).

Definition with_event (w : World) (e : event) : World :=
  mk_World (urlparse_path w) (remote w) (cwd w) (fs w) (log w ++ [e]).

Definition update (f : list string → option node) (p : list string) (n : node) :
    list string → option node :=
  λ q, if decide (q = p) then Some n else f q.

Definition lookup_abs (f : list string → option node) (p : list string) : option node :=
  match p with
  | [] => Some Dir
  | _ => f p
  end.

(** Collapsing [".."] against the component before it. *)
Definition normalize (cs : list string) : list string :=
  rev (foldl (λ st c, if decide (c = "..") then tail st else c :: st) [] cs).

(** The absolute components a path denotes in the current directory. *)
Definition resolve_comps (w : World) (p : Path) : list string :=
  normalize ((if decide (root p = "") then cwd w else []) ++ comps p).

(** [p.resolve()] *)
Definition resolve (w : World) (p : Path) : Path :=
  mk_Path (if decide (root p = "") then "/" else root p) (resolve_comps w p).

Definition lookup (w : World) (p : Path) : option node :=
  lookup_abs (fs w) (resolve_comps w p).

(** *** Calls that may raise and change the world *)

Definition M (A : Type) : Type := World → outcome A * World.

Global Instance M_ret : MRet M := λ A a w, (Return a, w).
Global Instance M_bind : MBind M := λ A B k m w,
  match m w with
  | (Return a, w') => k a w'
  | (Raise e, w') => (Raise e, w')
  end.

Definition raise {A} (e : exn) : M A := λ w, (Raise e, w).

Definition log_event (e : World → event) : M unit :=
  λ w, (Return (), with_event w (e w)).

(** [try: m  except urllib.error.HTTPError as e: h e.code e.msg] *)
Definition try_except_HTTPError {A} (m : M A) (h : Z → string → M A) : M A :=
  λ w, match m w with
       | (Raise (HTTPError code msg), w') => h code msg w'
       | r => r
       end.

(** [urllib.request.urlopen(url)] *)
Definition urlopen (url : string) : M Response :=
  λ w, match remote w url with
       | Responds r => (Return r, with_event w (Opened url))
       | FailsHTTP code msg => (Raise (HTTPError code msg), w)
       | Unreachable => (Raise URLError, w)
       end.

(** [p.exists()] *)
Definition exists_ (p : Path) : M bool :=
  λ w, (Return (bool_decide (is_Some (lookup w p))), w).

Definition dir_size : Z := 4096.

(** [os.stat(p).st_size] *)
Definition st_size (p : Path) : M Z :=
  λ w, match lookup w p with
       | Some (File content) => (Return (Z.of_nat (length content)), w)
       | Some Dir => (Return dir_size, w)
       | None => (Raise FileNotFoundError, w)
       end.

(** [Path.mkdir(parents=True, exist_ok=True)] on the reversed components:
    [os.mkdir] first; the parents are made when it reports that one is
    missing; an existing directory is accepted. *)
Fixpoint mkdir_rev (f : list string → option node) (rp : list string) :
    outcome (list string → option node) :=
  match lookup_abs f (rev rp) with
  | Some Dir => Return f
  | Some (File _) => Raise FileExistsError
  | None =>
      match rp with
      | [] => Return f
      | _ :: rparent =>
          match lookup_abs f (rev rparent) with
          | Some Dir => Return (update f (rev rp) Dir)
          | Some (File _) => Raise NotADirectoryError
          | None =>
              f' ← mkdir_rev f rparent;
              Return (update f' (rev rp) Dir)
          end
      end
  end.

Definition mkdir (p : Path) : M unit :=
  λ w, match mkdir_rev (fs w) (rev (resolve_comps w p)) with
       | Return f' => (Return (), with_fs w f')
       | Raise e => (Raise e, w)
       end.

(** [open(p, "wb")] followed by writing [content] *)
Definition write_file (p : Path) (content : list Byte.byte) : M unit :=
  λ w, let t := resolve_comps w p in
       match lookup_abs (fs w) t with
       | Some Dir => (Raise IsADirectoryError, w)
       | _ =>
           match lookup_abs (fs w) (removelast t) with
           | Some Dir => (Return (), with_fs w (update (fs w) t (File content)))
           | Some (File _) => (Raise NotADirectoryError, w)
           | None => (Raise FileNotFoundError, w)
           end
       end.

(** The bytes that reading a response to the end yields: the body, cut at
    the announced Content-Length when there is one (a negative length is
    ignored). *)
Definition received (r : Response) : list Byte.byte :=
  match content_length r with
  | Some size => if decide (0 ≤ size)%Z then take (Z.to_nat size) (body r) else body r
  | None => body r
  end.

(** [urllib.request.urlretrieve(url, filename, reporthook=...)]: the URL is
    opened again, what is read from it is written to [filename], and fewer
    bytes than an announced Content-Length raise ContentTooShortError after
    the file has been written.  The report hook only moves the progress
    bar. *)
Definition urlretrieve (url : string) (filename : Path) : M unit :=
  r ← urlopen url;
  _ ← write_file filename (received r);
  _ ← log_event (λ w, Retrieved url (resolve_comps w filename));
  match content_length r with
  | Some size =>
      if decide (0 ≤ size ∧ Z.of_nat (length (received r)) < size)%Z
      then raise ContentTooShortError else mret ()
  | None => mret ()
  end.

(** [print(text)] *)
Definition print (text : string) : M unit :=
  λ w, (Return (), with_event w (Printed text)).

(** [p.resolve()] as a call *)
Definition resolve_ (p : Path) : M Path := λ w, (Return (resolve w p), w).

(** [x or y] on an optional string: [None] and [""] are falsy. *)
Definition or_else (x : option string) (y : string) : string :=
  match x with
  | Some s => if decide (s = "") then y else s
  | None => y
  end.

(** The file name [download_file] settles on when none is given:
    [urlobject.info().get_filename() or Path(urllib.parse.urlparse(url).path).name] *)
Definition default_filename (w : World) (url : string) (r : Response) : string :=
  or_else (get_filename r) (name (Path_of (urlparse_path w url))).

Definition default_filename_ (url : string) (r : Response) : M string :=
  λ w, (Return (default_filename w url r), w).

(** *** download_file

    <<
    def download_file(url, filename=None, directory=None,
                      show_progress=True, silent=False) -> str:
        try:
            opener = urllib.request.build_opener()
            opener.addheaders = [("User-agent", "Mozilla/5.0")]
            urllib.request.install_opener(opener)
            urlobject = urllib.request.urlopen(url)
            if filename is None:
                filename = urlobject.info().get_filename() or Path(urllib.parse.urlparse(url).path).name
        except urllib.error.HTTPError as e:
            raise Exception(f"File downloading failed with error: {e.code} {e.msg}") from None
        filename = Path(filename)
        if len(filename.parts) > 1:
            raise ValueError(...)
        if directory is not None:
            directory = Path(directory)
            directory.mkdir(parents=True, exist_ok=True)
            filename = directory / Path(filename)
        urlobject_size = int(urlobject.info().get("Content-Length", 0))
        if not filename.exists() or (os.stat(filename).st_size != urlobject_size):
            progress_callback = DownloadProgressBar(...)
            urllib.request.urlretrieve(url, filename, reporthook=progress_callback.update_to)
            if os.stat(filename).st_size >= urlobject_size:
                progress_callback.update(urlobject_size - progress_callback.n)
                progress_callback.refresh()
        else:
            if not silent:
                print(f"'{filename}' already exists.")
        return filename.resolve()
    >>
    The opener only sets the User-agent header of the requests, and the
    progress bar is display only; both are left out, and [show_progress]
    has no other use. *)
Definition download_file (url : string) (filename directory : option string)
    (show_progress silent : bool) : M Path :=
  '(urlobject, filename) ← try_except_HTTPError
      (urlobject ← urlopen url;
       filename ← match filename with
                  | None => default_filename_ url urlobject
                  | Some f => mret f
                  end;
       mret (urlobject, filename))
      (λ code msg,
         raise (Exception ("File downloading failed with error: "
                           +:+ pretty code +:+ " " +:+ msg)));
  let filename := Path_of filename in
  if decide (1 < length (parts filename))%nat then raise ValueError
  else
    filename ← match directory with
               | Some d =>
                   let directory := Path_of d in
                   _ ← mkdir directory;
                   mret (joinpath directory filename)
               | None => mret filename
               end;
    let urlobject_size := default 0%Z (content_length urlobject) in
    present ← exists_ filename;
    stale ← (if present : bool
             then sz ← st_size filename; mret (bool_decide (sz ≠ urlobject_size))
             else mret true);
    _ ← (if stale : bool
         then _ ← urlretrieve url filename;
              _ ← st_size filename;
              mret ()
         else if silent : bool then mret ()
              else print ("'" +:+ str filename +:+ "' already exists."));
    resolve_ filename.

(** [s[:-4]] *)
Definition drop_last4 (s : string) : string :=
  String.substring 0 (String.length s - 4) s.

(** <<
    def download_ir_model(model_xml_url, destination_folder=None) -> str:
        model_bin_url = model_xml_url[:-4] + ".bin"
        model_xml_path = download_file(model_xml_url, directory=destination_folder, show_progress=False)
        download_file(model_bin_url, directory=destination_folder)
        return model_xml_path
    >> *)
Definition download_ir_model (model_xml_url : string)
    (destination_folder : option string) : M Path :=
  let model_bin_url := drop_last4 model_xml_url +:+ ".bin" in
  model_xml_path ← download_file model_xml_url None destination_folder false false;
  _ ← download_file model_bin_url None destination_folder true false;
  mret model_xml_path.

(** The path [download_file] works on once the file name is known. *)
Definition target_path (directory : option string) (filename : string) : Path :=
  match directory with
  | Some d => joinpath (Path_of d) (Path_of filename)
  | None => Path_of filename
  end.

Definition is_retrieval (e : event) : bool :=
  match e with
  | Retrieved _ _ => true
  | _ => false
  end.

(** The directory [download_file] saves into: [directory], or the current
    directory when there is none. *)
Definition dir_path (directory : option string) : Path :=
  match directory with
  | Some d => Path_of d
  | None => mk_Path "" []
  end.

(** A file name that is one ordinary path component. *)
Definition plain_name (n : string) : Prop :=
  Path_of n = mk_Path "" [n] ∧ n ≠ "..".

(** The directory can be made, or is there already: no file sits at it or
    above it; without [directory], the current directory exists. *)
Definition dir_available (f : list string → option node) (directory : option string)
    (base : list string) : Prop :=
  match directory with
  | Some _ => ∀ p c, p `prefix_of` base → lookup_abs f p ≠ Some (File c)
  | None => lookup_abs f base = Some Dir
  end.

(** No component of [directory] is [".."]: the directory is the one the
    components of the path spell out, whatever else the file system
    holds. *)
Definition no_dotdot (directory : option string) : Prop :=
  ∀ d, directory = Some d → ".." ∉ comps (Path_of d).

(** The body of a response is not shorter than announced. *)
Definition complete (r : Response) : Prop :=
  ∀ size, content_length r = Some size → (size ≤ Z.of_nat (length (body r)))%Z.

Definition is_file (f : list string → option node) (p : list string) : Prop :=
  ∃ c, f p = Some (File c).

(** Nothing up to date sits at [t]: no directory, and no file of the size
    that [download_file] compares with for the response [r]. *)
Definition stale (f : list string → option node) (t : list string) (r : Response) : Prop :=
  f t ≠ Some Dir
  ∧ ∀ c, f t = Some (File c) → Z.of_nat (length c) ≠ default 0%Z (content_length r).

(** What [mkdir] leaves of a file system: every node stays, and the only
    new nodes are directories on the way to [base]. *)
Definition grown (base : list string) (f f' : list string → option node) : Prop :=
  ∀ q, f' q = f q ∨ (f q = None ∧ f' q = Some Dir ∧ q `prefix_of` base).

(** The retrievals recorded in a log. *)
Definition retrievals (l : list event) : list event :=
  filter (λ e, is_retrieval e = true) l.

(** One world continues another: the hosts, the URL parser and the current
    directory are the same, every directory is still a directory, every
    file still a file, and the log has only grown. *)
Definition extends (w w' : World) : Prop :=
  urlparse_path w' = urlparse_path w
  ∧ remote w' = remote w
  ∧ cwd w' = cwd w
  ∧ (∀ q, fs w q = Some Dir → fs w' q = Some Dir)
  ∧ (∀ q, is_file (fs w) q → is_file (fs w') q)
  ∧ ∃ l, log w' = (log w ++ l)%list.

(** A call keeps the world when every run of it ends in a world that
    continues the one it started in. *)
Definition keeps {A} (m : M A) : Prop :=
  ∀ w o w', m w = (o, w') → extends w w'.

End Files.

(** ** The progress bar of a download *)

Module ProgressBar.

Local Open Scope Z_scope.

(** <<
    class DownloadProgressBar(tqdm_notebook):
        def update_to(self, block_num: int, block_size: int, total_size: int):
            downloaded = block_num * block_size
            if downloaded <= total_size:
                self.update(downloaded - self.n)
    >>
    Of tqdm only the counter is kept: [update(k)] adds [k] to [n] unless the
    bar is disabled, in which case it does nothing. *)
Record tqdm : Type := mk_tqdm {
  total : Z;
  n : Z;
  disable : bool
}.

(** [DownloadProgressBar(total=..., disable=...)]: the counter starts at 0. *)
Definition DownloadProgressBar (total : Z) (disable : bool) : tqdm :=
  mk_tqdm total 0 disable.

(** [self.update(k)] *)
Definition tqdm_update (self : tqdm) (k : Z) : tqdm :=
  if disable self then self else mk_tqdm (total self) (n self + k)%Z (disable self).

Definition update_to (self : tqdm) (block_num block_size total_size : Z) : tqdm :=
  let downloaded := (block_num * block_size)%Z in
  if decide (downloaded ≤ total_size)%Z
  then tqdm_update self (downloaded - n self)%Z
  else self.

(** The calls [urlretrieve] makes to its report hook: block numbers 0 to
    [blocks], each with the block size and the announced size. *)
Definition report_blocks (self : tqdm) (blocks : nat) (block_size total_size : Z) : tqdm :=
  foldl (λ bar b, update_to bar (Z.of_nat b) block_size total_size) self (seq 0 (S blocks)).

End ProgressBar.

(** ** Checks and alerts *)

Module Checks.

Local Open Scope string_scope.

(** The inference runtime as the helpers see it: [IECore().available_devices]. *)
Record IECore : Type := mk_IECore {
  available_devices : list string
}.

(** The notebook output: the HTML fragments handed to [display], oldest
    first. *)
Definition Shown : Type := list string.

Definition D (A : Type) : Type := Shown → outcome A * Shown.

Global Instance D_ret : MRet D := λ A a s, (Return a, s).
Global Instance D_bind : MBind D := λ A B k m s,
  match m s with
  | (Return a, s') => k a s'
  | (Raise e, s') => (Raise e, s')
  end.

Definition lift {A} (o : outcome A) : D A := λ s, (o, s).

(** [display(HTML(text))] *)
Definition display_HTML (text : string) : D unit := λ s, (Return (), (s ++ [text])%list).

Definition dquote : string :=
  String (Ascii false true false false false true false false) EmptyString.

(** <<
    class NotebookAlert(Exception):
        def __init__(self, message: str, alert_class: str):
            self.message = message
            self.alert_class = alert_class
            self.show_message()

        def show_message(self):
            display(HTML(f'<div class="alert alert-{self.alert_class}">{self.message}'))
    >> *)
Record NotebookAlert : Type := mk_NotebookAlert {
  message : string;
  alert_class : string
}.

Definition show_message (self : NotebookAlert) : D unit :=
  display_HTML ("<div class=" +:+ dquote +:+ "alert alert-" +:+ alert_class self
                +:+ dquote +:+ ">" +:+ message self).

Definition NotebookAlert_init (message alert_class : string) : D NotebookAlert :=
  let self := mk_NotebookAlert message alert_class in
  _ ← show_message self;
  mret self.

(** [sep.join(l)] *)
Fixpoint join (sep : string) (l : list string) : string :=
  match l with
  | [] => ""
  | [x] => x
  | x :: rest => x +:+ sep +:+ join sep rest
  end.

(** [l[0]] *)
Definition first {A} (l : list A) : outcome A :=
  match l with
  | x :: _ => Return x
  | [] => Raise IndexError
  end.

(** <<
    class DeviceNotFoundAlert(NotebookAlert):
        def __init__(self, device: str):
            ie = IECore()
            supported_devices = ie.available_devices
            self.message = (
                f"Running this cell requires a {device} device, "
                "which is not available on this system. "
            )
            self.alert_class = "warning"
            if len(supported_devices) == 1:
                self.message += f"The following device is available: {ie.available_devices[0]}"
            else:
                self.message += (
                    "The following devices are available: " f"{', '.join(ie.available_devices)}"
                )
            super().__init__(self.message, self.alert_class)
    >> *)
Definition DeviceNotFoundAlert_init (ie : IECore) (device : string) : D NotebookAlert :=
  let supported_devices := available_devices ie in
  let message := "Running this cell requires a " +:+ device +:+ " device, "
                 +:+ "which is not available on this system. " in
  let alert_class := "warning" in
  message ← (if decide (length supported_devices = 1%nat)
             then d0 ← lift (first (available_devices ie));
                  mret (message +:+ "The following device is available: " +:+ d0)
             else mret (message +:+ "The following devices are available: "
                        +:+ join ", " (available_devices ie)));
  NotebookAlert_init message alert_class.

(** <<
    def check_device(device: str) -> bool:
        ie = IECore()
        if device not in ie.available_devices:
            DeviceNotFoundAlert(device)
            return False
        else:
            return True
    >> *)
Definition check_device (ie : IECore) (device : string) : D bool :=
  if decide (device ∉ available_devices ie)
  then _ ← DeviceNotFoundAlert_init ie device; mret false
  else mret true.

(** The text of the warning for a missing device. *)
Definition device_warning (ie : IECore) (device : string) : string :=
  ("Running this cell requires a " +:+ device +:+ " device, "
   +:+ "which is not available on this system. ")
  +:+ match available_devices ie with
      | [d0] => "The following device is available: " +:+ d0
      | l => "The following devices are available: " +:+ join ", " l
      end.

Definition alert_html (class text : string) : string :=
  "<div class=" +:+ dquote +:+ "alert alert-" +:+ class +:+ dquote +:+ ">" +:+ text.

(** [sub in s] on strings: [sub] occurs in [s] as a contiguous piece. *)
Fixpoint contains (sub s : string) : bool :=
  String.prefix sub s
  || match s with
     | EmptyString => false
     | String _ s' => contains sub s'
     end.

(** <<
    def check_openvino_version(version: str) -> bool:
        installed_version = openvino.inference_engine.get_version()
        if version not in installed_version:
            NotebookAlert(
                f"This notebook requires OpenVINO {version}. "
                f"The version on your system is: <i>{installed_version}</i>.<br>"
                "Please run <span style='font-family:monospace'>pip install --upgrade -r requirements.txt</span> "
                "in the openvino_env environment to install this version. "
                "See the <a href='https://github.com/openvinotoolkit/openvino_notebooks'>"
                "OpenVINO Notebooks README</a> for detailed instructions",
                alert_class="danger",
            )
            return False
        else:
            return True
    >>
    [installed_version] stands for what [get_version()] returns. *)
Definition version_message (installed_version version : string) : string :=
  "This notebook requires OpenVINO " +:+ version +:+ ". "
  +:+ "The version on your system is: <i>" +:+ installed_version +:+ "</i>.<br>"
  +:+ "Please run <span style='font-family:monospace'>pip install --upgrade -r requirements.txt</span> "
  +:+ "in the openvino_env environment to install this version. "
  +:+ "See the <a href='https://github.com/openvinotoolkit/openvino_notebooks'>"
  +:+ "OpenVINO Notebooks README</a> for detailed instructions".

Definition check_openvino_version (installed_version version : string) : D bool :=
  if negb (contains version installed_version)
  then _ ← NotebookAlert_init (version_message installed_version version) "danger";
       mret false
  else mret true.

End Checks.

(* ================================================================== *)
(** * Theorems *)

Module ImagesFacts.
Import Images.
Import SpecFloat.
Local Open Scope Z_scope.

(** *** Maximum and minimum *)

Lemma foldl_max_is_max xs : ∀ x, is_max (x :: xs) (foldl Z.max x xs).
Proof.
  induction xs as [|y ys IH]; intros x; simpl.
  - split; [left | ]. intros z Hz. apply list_elem_of_singleton in Hz as ->. lia.
  - destruct (IH (Z.max x y)) as [Hin Hub]. split.
    + apply elem_of_cons in Hin as [Heq | Hin].
      * rewrite Heq. destruct (Z.max_spec x y) as [[_ ->] | [_ ->]].
        -- right; left.
        -- left.
      * right; by right.
    + pose proof (Hub (Z.max x y) ltac:(left)) as Hxy.
      intros z Hz. apply elem_of_cons in Hz as [Hz | Hz]; [lia |].
      apply elem_of_cons in Hz as [Hz | Hz]; [lia |].
      apply Hub. by right.
Qed.

Lemma foldl_min_is_min xs : ∀ x, is_min (x :: xs) (foldl Z.min x xs).
Proof.
  induction xs as [|y ys IH]; intros x; simpl.
  - split; [left | ]. intros z Hz. apply list_elem_of_singleton in Hz as ->. lia.
  - destruct (IH (Z.min x y)) as [Hin Hlb]. split.
    + apply elem_of_cons in Hin as [Heq | Hin].
      * rewrite Heq. destruct (Z.min_spec x y) as [[_ ->] | [_ ->]].
        -- left.
        -- right; left.
      * right; by right.
    + pose proof (Hlb (Z.min x y) ltac:(left)) as Hxy.
      intros z Hz. apply elem_of_cons in Hz as [Hz | Hz]; [lia |].
      apply elem_of_cons in Hz as [Hz | Hz]; [lia |].
      apply Hlb. by right.
Qed.

Lemma is_max_unique d m m' : is_max d m → is_max d m' → m = m'.
Proof. intros [Hi Hu] [Hi' Hu']. specialize (Hu _ Hi'). specialize (Hu' _ Hi). lia. Qed.

Lemma is_min_unique d m m' : is_min d m → is_min d m' → m = m'.
Proof. intros [Hi Hu] [Hi' Hu']. specialize (Hu _ Hi'). specialize (Hu' _ Hi). lia. Qed.



(** *** Integer arithmetic in a type *)

Lemma bits_pos (dt : int_dtype) : 8 ≤ bits dt.
Proof. destruct dt; cbn; lia. Qed.

Lemma range_width (dt : int_dtype) : max_value dt - min_value dt = 2 ^ bits dt - 1.
Proof. destruct dt; reflexivity. Qed.

Lemma min_value_nonpos (dt : int_dtype) : min_value dt ≤ 0.
Proof. destruct dt; cbn; lia. Qed.

(** A result within the range is not changed. *)
Lemma wrap_in_range (dt : int_dtype) (z : Z) : in_range dt z → wrap dt z = z.
Proof.
  unfold in_range, wrap. intros Hz. pose proof (range_width dt).
  rewrite Z.mod_small by lia. lia.
Qed.

Lemma wrap_range (dt : int_dtype) (z : Z) : in_range dt (wrap dt z).
Proof.
  unfold in_range, wrap. pose proof (range_width dt).
  assert (0 < 2 ^ bits dt) by (apply Z.pow_pos_nonneg; pose proof (bits_pos dt); lia).
  pose proof (Z.mod_pos_bound (z - min_value dt) (2 ^ bits dt)). lia.
Qed.

(** *** Conversion to float64 and division *)

Lemma digits2_pos_iter_xO (p : positive) (n : positive) :
  digits2_pos (Pos.iter xO p n) = (digits2_pos p + n)%positive.
Proof.
  induction n as [|n IH] using Pos.peano_ind.
  - cbn. lia.
  - rewrite Pos.iter_succ. cbn [digits2_pos]. rewrite IH.
    symmetry. apply Pos.add_succ_r.
Qed.

Lemma Zpos_iter_xO (p n : positive) : Zpos (Pos.iter xO p n) = Zpos p * 2 ^ Zpos n.
Proof.
  induction n as [|n IH] using Pos.peano_ind.
  - cbn. lia.
  - rewrite Pos.iter_succ, Pos2Z.inj_succ, Z.pow_succ_r by lia.
    rewrite Pos2Z.inj_xO, IH. lia.
Qed.

Lemma pow2_split (n : Z) : 0 < n → 2 ^ n = 2 * 2 ^ (n - 1).
Proof. intros Hn. rewrite <- Z.pow_succ_r by lia. f_equal. lia. Qed.

(** The number of binary digits of a positive number. *)
Lemma digits2_pos_spec (p : positive) :
  2 ^ (Zpos (digits2_pos p) - 1) ≤ Zpos p < 2 ^ Zpos (digits2_pos p).
Proof.
  induction p as [p IH | p IH |]; cbn [digits2_pos].
  - rewrite Pos2Z.inj_succ.
    replace (Z.succ (Zpos (digits2_pos p)) - 1) with (Zpos (digits2_pos p)) by lia.
    rewrite (pow2_split (Z.succ _)) by lia.
    replace (Z.succ (Zpos (digits2_pos p)) - 1) with (Zpos (digits2_pos p)) by lia.
    rewrite (pow2_split (Zpos (digits2_pos p))) in * by lia. lia.
  - rewrite Pos2Z.inj_succ.
    replace (Z.succ (Zpos (digits2_pos p)) - 1) with (Zpos (digits2_pos p)) by lia.
    rewrite (pow2_split (Z.succ _)) by lia.
    replace (Z.succ (Zpos (digits2_pos p)) - 1) with (Zpos (digits2_pos p)) by lia.
    rewrite (pow2_split (Zpos (digits2_pos p))) in * by lia. lia.
  - cbn. lia.
Qed.

Lemma pow2_le_one (n : Z) : n ≤ 0 → 2 ^ n ≤ 1.
Proof.
  intros Hn. destruct (Z.eq_dec n 0) as [-> | Hne]; [done |].
  rewrite Z.pow_neg_r by lia. lia.
Qed.

Lemma digits2_pos_eq (p : positive) (n : Z) :
  2 ^ (n - 1) ≤ Zpos p < 2 ^ n → Zpos (digits2_pos p) = n.
Proof.
  intros [Hlo Hhi]. pose proof (digits2_pos_spec p) as [Hlo' Hhi'].
  set (k := Zpos (digits2_pos p)) in *.
  assert (Hk : 0 < k) by (unfold k; lia).
  destruct (Z.lt_trichotomy k n) as [Hlt | [Heq | Hgt]]; [| done |].
  - assert (2 ^ k ≤ 2 ^ (n - 1)) by (apply Z.pow_le_mono_r; lia). lia.
  - assert (0 < n).
    { destruct (Z.le_gt_cases n 0) as [Hn | Hn]; [| done].
      pose proof (pow2_le_one n Hn). lia. }
    assert (2 ^ n ≤ 2 ^ (k - 1)) by (apply Z.pow_le_mono_r; lia). lia.
Qed.

(** A number below [2 ^ n] has at most [n] binary digits. *)
Lemma digits2_pos_bound (p : positive) (n : Z) :
  Zpos p < 2 ^ n → Zpos (digits2_pos p) ≤ n.
Proof.
  intros Hlt. pose proof (digits2_pos_spec p) as [Hlo _].
  destruct (Z.le_gt_cases (Zpos (digits2_pos p)) n) as [| Hgt]; [done |].
  assert (2 ^ n ≤ 2 ^ (Zpos (digits2_pos p) - 1)); [| lia].
  destruct (Z.le_gt_cases 0 n) as [Hn | Hn].
  - apply Z.pow_le_mono_r; lia.
  - rewrite (Z.pow_neg_r 2 n) by lia. apply Z.pow_nonneg. lia.
Qed.

(** A positive integer below [2 ^ 53] converts exactly: the float64 has
    the integer, shifted to 53 digits, as its mantissa. *)
Lemma f64_of_Z_pos_form (p : positive) :
  Zpos p < 2 ^ 53 →
  ∃ m, f64_of_Z (Zpos p) = S754_finite false m (Zpos (digits2_pos p) - 53)
    ∧ Zpos (digits2_pos m) = 53
    ∧ Zpos m = Zpos p * 2 ^ (53 - Zpos (digits2_pos p)).
Proof.
  intros Hlt. pose proof (digits2_pos_bound p 53 Hlt) as Hk.
  unfold f64_of_Z, binary_normalize, binary_round.
  set (k := digits2_pos p) in *.
  assert (Hfexp : fexp 53 1024 (Zpos k + 0) = Zpos k - 53).
  { unfold fexp, emin. lia. }
  rewrite Hfexp. unfold shl_align.
  destruct (Zpos k - 53 - 0) as [|d|d] eqn:Hd; [| lia |].
  - unfold binary_round_aux, shr_fexp.
    cbn [Zdigits2]. fold k.
    replace (fexp 53 1024 (Zpos k + 0) - 0) with 0 by (rewrite Hfexp; lia).
    cbn [shr shr_record_of_loc shr_m loc_of_shr_record round_nearest_even Zdigits2].
    fold k. replace (fexp 53 1024 (Zpos k + 0) - 0) with 0 by (rewrite Hfexp; lia).
    cbn [shr shr_m]. exists p. fold k.
    replace (Zpos k - 53) with 0 by lia.
    split; [reflexivity |]. split; [lia |].
    replace (53 - Zpos k) with 0 by lia. lia.
  - unfold binary_round_aux, shr_fexp.
    cbn [Zdigits2]. rewrite digits2_pos_iter_xO. fold k.
    assert (Hz : fexp 53 1024 (Zpos (k + d) + (Zpos k - 53)) - (Zpos k - 53) = 0).
    { unfold fexp, emin. lia. }
    rewrite Hz.
    cbn [shr shr_record_of_loc shr_m loc_of_shr_record round_nearest_even Zdigits2].
    rewrite digits2_pos_iter_xO. fold k. rewrite Hz.
    cbn [shr shr_m].
    replace (Zpos k - 53 <=? 1024 - 53) with true by (symmetry; apply Z.leb_le; lia).
    exists (Pos.iter xO p d). split; [reflexivity |]. split.
    + rewrite digits2_pos_iter_xO. fold k. lia.
    + rewrite Zpos_iter_xO. f_equal. f_equal. lia.
Qed.

(** A positive integer below [2 ^ 53] converts to a positive finite
    float64. *)
Lemma f64_of_Z_pos (p : positive) :
  Zpos p < 2 ^ 53 → ∃ m e, f64_of_Z (Zpos p) = S754_finite false m e.
Proof.
  intros Hlt. destruct (f64_of_Z_pos_form p Hlt) as (m & Hm & _). eauto.
Qed.

Lemma f64_of_Z_neg (p : positive) :
  Zpos p < 2 ^ 53 → ∃ m e, f64_of_Z (Zneg p) = S754_finite true m e.
Proof.
  intros Hlt. destruct (f64_of_Z_pos p Hlt) as (m & e & Hm).
  exists m, e. revert Hm. unfold f64_of_Z, binary_normalize, binary_round.
  destruct (shl_align _ _ _) as [mz ez]. unfold binary_round_aux.
  destruct (shr_fexp _ _ _ _ _) as [mrs' e'].
  destruct (shr_fexp _ _ _ _ _) as [mrs'' e''].
  destruct (shr_m mrs''); try discriminate.
  destruct (_ <=? _); [| discriminate]. by intros [= -> ->].
Qed.

Lemma div_eucl_mul (a b : Z) : 0 < b → Z.div_eucl (a * b) b = (a, 0).
Proof.
  intros Hb.
  assert (H : Z.div_eucl (a * b) b = ((a * b) / b, (a * b) mod b)).
  { unfold Z.div, Z.modulo. by destruct (Z.div_eucl (a * b) b). }
  rewrite H, Z.div_mul, Z.mod_mul by lia. reflexivity.
Qed.

(** A finite float64 divided by itself is 1.0. *)
Lemma f64_div_self (s : bool) (m : positive) (e : Z) :
  f64_div (S754_finite s m e) (S754_finite s m e) = f64_one.
Proof.
  unfold f64_div, SFdiv, SFdiv_core_binary.
  rewrite !Z.sub_diag.
  change (fexp 53 1024 0) with (-53).
  change (Z.min (-53) 0) with (-53).
  change (0 - -53) with 53.
  cbv iota beta.
  rewrite Z.shiftl_mul_pow2 by lia.
  rewrite Z.mul_comm, div_eucl_mul by lia.
  assert (Hloc : new_location (Z.pos m) 0 = loc_Exact).
  { unfold new_location. by destruct (Z.even (Z.pos m)). }
  rewrite Hloc. destruct s; reflexivity.
Qed.

(** The quotients of the extremes, for a positive divisor below
    [2 ^ 53]. *)
Lemma f64_div_extremes (d : Z) :
  0 < d < 2 ^ 53 →
  f64_div (f64_of_Z 0) (f64_of_Z d) = f64_zero
  ∧ f64_div (f64_of_Z d) (f64_of_Z d) = f64_one.
Proof.
  intros Hd. destruct d as [|p|p]; try lia.
  destruct (f64_of_Z_pos p ltac:(lia)) as (m & e & ->).
  split; [reflexivity | apply f64_div_self].
Qed.

Lemma shr_m_of_loc (m : Z) (l : location) : shr_m (shr_record_of_loc m l) = m.
Proof. by destruct l as [|[]]. Qed.

Lemma shr_1_m (q : positive) (l : location) :
  shr_m (shr_1 (shr_record_of_loc (Zpos q) l)) = Zpos q / 2.
Proof.
  assert (H : ∀ r s, shr_m (shr_1 (Build_shr_record (Zpos q) r s)) = Zpos q / 2).
  { intros r s. destruct q as [q | q |]; cbn [shr_1 shr_m].
    - rewrite Pos2Z.inj_xI. apply (Z.div_unique _ _ _ 1); lia.
    - rewrite Pos2Z.inj_xO. apply (Z.div_unique _ _ _ 0); lia.
    - reflexivity. }
  destruct l as [|[]]; apply H.
Qed.

Lemma round_nearest_even_bounds (m : Z) (l : location) :
  m ≤ round_nearest_even m l ≤ m + 1.
Proof.
  unfold round_nearest_even. destruct l as [|[]]; try lia.
  destruct (Z.even m); lia.
Qed.

(** The alignment of a mantissa of 53 or of 54 digits, away from the
    subnormal numbers. *)
Lemma shr_fexp_53 (q : positive) (e : Z) (l : location) :
  Zpos (digits2_pos q) = 53 → - 1074 ≤ e →
  shr_fexp 53 1024 (Zpos q) e l = (shr_record_of_loc (Zpos q) l, e).
Proof.
  intros Hd He. unfold shr_fexp. cbn [Zdigits2]. rewrite Hd.
  replace (fexp 53 1024 (53 + e) - e) with 0 by (unfold fexp, emin; lia).
  reflexivity.
Qed.

Lemma shr_fexp_54 (q : positive) (e : Z) (l : location) :
  Zpos (digits2_pos q) = 54 → - 1075 ≤ e →
  shr_fexp 53 1024 (Zpos q) e l = (shr_1 (shr_record_of_loc (Zpos q) l), e + 1).
Proof.
  intros Hd He. unfold shr_fexp. cbn [Zdigits2]. rewrite Hd.
  replace (fexp 53 1024 (54 + e) - e) with 1 by (unfold fexp, emin; lia).
  reflexivity.
Qed.

(** Rounding a mantissa of 53 or 54 digits: the exponent grows by at most
    one, or by two with the mantissa [2 ^ 52] left. *)
Lemma binary_round_aux_normal (q : positive) (e : Z) (l : location) :
  2 ^ 52 ≤ Zpos q < 2 ^ 54 → - 1074 ≤ e ≤ 0 →
  ∃ m e'', binary_round_aux 53 1024 false (Zpos q) e l = S754_finite false m e''
    ∧ (e'' ≤ e + 1 ∨ (e'' = e + 2 ∧ Zpos m = 2 ^ 52))
    ∧ (Zpos q < 2 ^ 53 → e'' = e ∨ (e'' = e + 1 ∧ Zpos m = 2 ^ 52)).
Proof.
  intros Hq He.
  assert (Hfirst : ∃ mrs e1, shr_fexp 53 1024 (Zpos q) e l = (mrs, e1)
            ∧ 2 ^ 52 ≤ shr_m mrs < 2 ^ 53
            ∧ (e1 = e ∨ e1 = e + 1) ∧ (Zpos q < 2 ^ 53 → e1 = e)).
  { destruct (Z.lt_ge_cases (Zpos q) (2 ^ 53)) as [Hlt | Hge].
    - eexists _, _. split; [apply shr_fexp_53; [apply digits2_pos_eq |]; lia |].
      rewrite shr_m_of_loc. lia.
    - eexists _, _. split; [apply shr_fexp_54; [apply digits2_pos_eq |]; lia |].
      rewrite shr_1_m.
      assert (2 ^ 52 ≤ Zpos q / 2) by (apply Z.div_le_lower_bound; lia).
      assert (Zpos q / 2 < 2 ^ 53) by (apply Z.div_lt_upper_bound; lia).
      lia. }
  destruct Hfirst as (mrs & e1 & Hrun1 & Hm1 & He1 & He1').
  unfold binary_round_aux. rewrite Hrun1.
  pose proof (round_nearest_even_bounds (shr_m mrs) (loc_of_shr_record mrs)) as Hr.
  set (m1 := round_nearest_even (shr_m mrs) (loc_of_shr_record mrs)) in *.
  destruct m1 as [|p1|p1] eqn:Hp1; try lia.
  destruct (Z.lt_ge_cases (Zpos p1) (2 ^ 53)) as [Hlt | Hge].
  - rewrite shr_fexp_53 by ((apply digits2_pos_eq; lia) || lia).
    cbn [shr_record_of_loc shr_m].
    replace (e1 <=? 1024 - 53) with true by (symmetry; apply Z.leb_le; lia).
    exists p1, e1. split; [reflexivity |]. split; [lia |]. intros Hsmall.
    specialize (He1' Hsmall). lia.
  - assert (Hp : Zpos p1 = 2 ^ 53) by lia.
    rewrite shr_fexp_54 by ((apply digits2_pos_eq; lia) || lia).
    rewrite (shr_1_m p1 loc_Exact), Hp.
    change (2 ^ 53 / 2) with (Zpos 4503599627370496).
    replace (e1 + 1 <=? 1024 - 53) with true by (symmetry; apply Z.leb_le; lia).
    exists 4503599627370496%positive, (e1 + 1). split; [reflexivity |].
    split; [lia |]. intros Hsmall. specialize (He1' Hsmall). right. split; [lia | done].
Qed.

Lemma div_eucl_eq (a b : Z) : Z.div_eucl a b = (a / b, a mod b).
Proof. unfold Z.div, Z.modulo. by destruct (Z.div_eucl a b). Qed.

(** The float64 quotient of two positive integers below [2 ^ 53], the
    smaller one on top, is a positive number not above 1.0: its exponent is
    below that of 1.0, or it is 1.0. *)
Lemma f64_div_le_one (n d : Z) :
  0 < n < d → d < 2 ^ 53 →
  ∃ m e, f64_div (f64_of_Z n) (f64_of_Z d) = S754_finite false m e
    ∧ (e < -52 ∨ (e = -52 ∧ Zpos m = 2 ^ 52)).
Proof.
  intros Hn Hd. destruct n as [|pn|pn]; try lia. destruct d as [|pd|pd]; try lia.
  destruct (f64_of_Z_pos_form pn ltac:(lia)) as (mn & -> & Hdn & Hmn).
  destruct (f64_of_Z_pos_form pd ltac:(lia)) as (md & -> & Hdd & Hmd).
  pose proof (digits2_pos_spec pn) as Hsn. pose proof (digits2_pos_spec pd) as Hsd.
  pose proof (digits2_pos_spec mn) as Hbn. pose proof (digits2_pos_spec md) as Hbd.
  rewrite Hdn in Hbn. rewrite Hdd in Hbd.
  set (kn := Zpos (digits2_pos pn)) in *. set (kd := Zpos (digits2_pos pd)) in *.
  assert (Hkn : 1 ≤ kn) by (unfold kn; lia).
  assert (Hkle : kn ≤ kd).
  { destruct (Z.le_gt_cases kn kd) as [|Hgt]; [done |].
    assert (2 ^ kd ≤ 2 ^ (kn - 1)) by (apply Z.pow_le_mono_r; lia). lia. }
  assert (Hkd : kd ≤ 53) by (apply digits2_pos_bound; lia).
  unfold f64_div, SFdiv, SFdiv_core_binary. cbn [Zdigits2]. rewrite Hdn, Hdd.
  replace (53 + (kn - 53) - (53 + (kd - 53))) with (kn - kd) by lia.
  replace (kn - 53 - (kd - 53)) with (kn - kd) by lia.
  replace (Z.min (fexp 53 1024 (kn - kd)) (kn - kd)) with (kn - kd - 53)
    by (unfold fexp, emin; lia).
  replace (kn - kd - (kn - kd - 53)) with 53 by lia.
  cbv iota beta. rewrite Z.shiftl_mul_pow2 by lia.
  rewrite div_eucl_eq.
  set (q := Zpos mn * 2 ^ 53 / Zpos md).
  assert (Hqlo : 2 ^ 52 ≤ q).
  { apply Z.div_le_lower_bound; [lia |]. nia. }
  assert (Hqhi : q < 2 ^ 54).
  { apply Z.div_lt_upper_bound; [lia |]. nia. }
  destruct q as [|pq|pq] eqn:Hq; try lia.
  destruct (binary_round_aux_normal pq (kn - kd - 53)
              (new_location (Zpos md) (Zpos mn * 2 ^ 53 mod Zpos md)))
    as (m & e'' & Hrun & Hcase & Hsmall); [lia | lia |].
  cbn [xorb]. rewrite Hrun. exists m, e''. split; [reflexivity |].
  destruct (Z.eq_dec kn kd) as [Heq | Hne].
  - assert (Hlt : Zpos mn < Zpos md).
    { rewrite Hmn, Hmd. fold kn kd. rewrite Heq.
      apply Z.mul_lt_mono_pos_r; [apply Z.pow_pos_nonneg; lia | lia]. }
    assert (Hq53 : Zpos pq < 2 ^ 53).
    { rewrite <- Hq. unfold q. apply Z.div_lt_upper_bound; [lia |]. nia. }
    specialize (Hsmall Hq53). lia.
  - lia.
Qed.

Lemma f64_leb_unit (m : positive) (e : Z) :
  e < -52 ∨ (e = -52 ∧ Zpos m = 2 ^ 52) →
  f64_leb f64_zero (S754_finite false m e) = true
  ∧ f64_leb (S754_finite false m e) f64_one = true.
Proof.
  intros Hcase. split; [reflexivity |].
  unfold f64_leb, SFleb, f64_one, SFcompare.
  destruct Hcase as [Hlt | [-> Hm]].
  - by rewrite (proj2 (Z.compare_lt_iff e (-52)) Hlt).
  - assert (m = 4503599627370496%positive) as -> by lia. reflexivity.
Qed.

(** *** normalize_minmax *)

(** The result of the notebook for an 8-bit signed array whose span does
    not fit the type: the subtraction [127 - (-128)] wraps to [-1], and the
    middle value comes out as 128.0. *)
Example normalize_minmax_int8_wraps :
  normalize_minmax int8 (mk_ndarray [3%nat] [-128; 0; 127])
  = Return (mk_ndarray [3%nat]
      [S754_zero true; S754_finite false 4503599627370496 (-45); f64_one])
  ∧ f64_of_Z 128 = S754_finite false 4503599627370496 (-45).
Proof. split; vm_compute; reflexivity. Qed.




(** *** to_rgb, to_bgr *)

(** The check of the notebook: channel 0 of the BGR array is channel 2 of
    the RGB array. *)
Example to_rgb_pixel :
  to_rgb (Int uint8) (mk_ndarray [1; 2; 3]%nat [0; 1; 2; 3; 4; 5])
  = Return (mk_ndarray [1; 2; 3]%nat [2; 1; 0; 5; 4; 3]).
Proof. reflexivity. Qed.

(** A fourth channel is dropped, so it does not come back. *)
Example to_rgb_drops_alpha :
  to_rgb (Int uint8) (mk_ndarray [1; 1; 4]%nat [0; 1; 2; 255])
  = Return (mk_ndarray [1; 1; 3]%nat [2; 1; 0]).
Proof. reflexivity. Qed.

Lemma swap_rb3_length {A} (n : nat) :
  ∀ d : list A, length d = (3 * n)%nat → length (swap_rb3 d) = (3 * n)%nat.
Proof.
  induction n as [|n IH]; intros d Hlen.
  - by destruct d.
  - destruct d as [|c0 [|c1 [|c2 rest]]]; cbn in Hlen; try lia.
    cbn [swap_rb3 length]. rewrite (IH rest) by lia. lia.
Qed.

Lemma swap_rb3_involutive {A} (n : nat) :
  ∀ d : list A, length d = (3 * n)%nat → swap_rb3 (swap_rb3 d) = d.
Proof.
  induction n as [|n IH]; intros d Hlen.
  - by destruct d.
  - destruct d as [|c0 [|c1 [|c2 rest]]]; cbn in Hlen; try lia.
    cbn [swap_rb3]. rewrite (IH rest) by lia. reflexivity.
Qed.

(** What [cvtColor] does on a three-channel image it accepts. *)
Lemma cvtColor_3 {A} (dt : dtype) (src : ndarray A) (code : ColorConversionCodes)
    (H W : nat) :
  cvt_depth dt = true → shape src = [H; W; 3%nat] → H ≠ 0%nat → W ≠ 0%nat →
  cvtColor dt src code = Return (mk_ndarray [H; W; 3%nat] (swap_rb3 (data src))).
Proof.
  intros Hdepth Hshape HH HW. unfold cvtColor. rewrite Hdepth, Hshape. cbn [negb].
  rewrite decide_False by lia. by destruct code.
Qed.

(** A three-channel image it refuses. *)
Lemma cvtColor_3_refused {A} (dt : dtype) (src : ndarray A) (code : ColorConversionCodes)
    (H W : nat) :
  shape src = [H; W; 3%nat] →
  cvt_depth dt = false ∨ H = 0%nat ∨ W = 0%nat →
  cvtColor dt src code = Raise cv2_error.
Proof.
  intros Hshape Hcase. unfold cvtColor. rewrite Hshape.
  destruct (cvt_depth dt); cbn [negb]; [| done].
  destruct Hcase as [Hd | Hempty]; [discriminate Hd |].
  by rewrite decide_True by lia.
Qed.

(** As stated for every three-channel image array the round trip fails:
    an image of 64-bit floats, as a normalized image is, is refused by
    OpenCV. *)
Lemma round_trip_claim_fails :
  ¬ (∀ (A : Type) (dt : dtype) (image_data : ndarray A) (H W : nat),
       shape image_data = [H; W; 3%nat] → wf_ndarray image_data →
       ∃ rgb_data, to_rgb dt image_data = Return rgb_data
         ∧ to_bgr dt rgb_data = Return image_data).
Proof.
  intros Hclaim.
  destruct (Hclaim spec_float float64
              (mk_ndarray [1; 1; 3]%nat [f64_zero; f64_one; f64_zero]) 1%nat 1%nat)
    as (rgb_data & Hrun & _); [reflexivity | reflexivity |].
  discriminate Hrun.
Qed.

(** C2 (amended).  For a three-channel image array with pixels whose
    elements are 8-bit or 16-bit unsigned integers or 32-bit floats,
    [to_rgb] returns an array of the same shape, and [to_bgr] of that array
    returns the original array.  For any other three-channel array (another
    element type, or no rows or no columns) [to_rgb] raises cv2.error. *)
Theorem to_bgr_to_rgb {A} (dt : dtype) (image_data : ndarray A) (H W : nat) :
  shape image_data = [H; W; 3%nat] →
  wf_ndarray image_data →
  (cvt_depth dt = true → H ≠ 0%nat → W ≠ 0%nat →
   ∃ rgb_data, to_rgb dt image_data = Return rgb_data
     ∧ shape rgb_data = shape image_data
     ∧ wf_ndarray rgb_data
     ∧ to_bgr dt rgb_data = Return image_data)
  ∧ (cvt_depth dt = false ∨ H = 0%nat ∨ W = 0%nat →
     to_rgb dt image_data = Raise cv2_error).
Proof.
  intros Hshape Hwf.
  assert (Hlen : length (data image_data) = (3 * (H * W))%nat).
  { unfold wf_ndarray in Hwf. rewrite Hwf, Hshape. cbn. lia. }
  split.
  - intros Hdepth HH HW.
    exists (mk_ndarray [H; W; 3%nat] (swap_rb3 (data image_data))).
    split; [by apply cvtColor_3 |]. split; [by rewrite Hshape |]. split.
    + unfold wf_ndarray. cbn [shape data].
      rewrite (swap_rb3_length (H * W)) by exact Hlen. cbn. lia.
    + unfold to_bgr. rewrite (cvtColor_3 dt _ _ H W) by done. cbn [data].
      rewrite (swap_rb3_involutive (H * W)) by exact Hlen.
      destruct image_data as [sh d]. cbn [shape data] in *. by rewrite Hshape.
  - intros Hcase. by apply (cvtColor_3_refused dt _ _ H W).
Qed.

Lemma to_bgr_to_rgb_witness :
  (∃ rgb_data,
     to_rgb (Int uint8) (mk_ndarray [1; 2; 3]%nat [0; 1; 2; 3; 4; 5]) = Return rgb_data
     ∧ to_bgr (Int uint8) rgb_data
       = Return (mk_ndarray [1; 2; 3]%nat [0; 1; 2; 3; 4; 5]))
  ∧ to_rgb float64 (mk_ndarray [1; 2; 3]%nat [0; 1; 2; 3; 4; 5]) = Raise cv2_error.
Proof.
  split.
  - destruct (proj1 (to_bgr_to_rgb (Int uint8)
                       (mk_ndarray [1; 2; 3]%nat [0; 1; 2; 3; 4; 5]) 1%nat 2%nat
                       eq_refl eq_refl))
      as (rgb_data & Hrun & _ & _ & Hback); [reflexivity | lia | lia |].
    exists rgb_data. split; [exact Hrun | exact Hback].
  - apply (proj2 (to_bgr_to_rgb float64
                    (mk_ndarray [1; 2; 3]%nat [0; 1; 2; 3; 4; 5]) 1%nat 2%nat
                    eq_refl eq_refl)).
    by left.
Defined.

End ImagesFacts.

Module SegmentationFacts.
Import Segmentation.
Local Open Scope Z_scope.

Lemma getitem_position {A} (a : list A) (i : nat) (x : A) :
  a !! i = Some x → getitem a (Z.of_nat i) = Return x.
Proof.
  intros Hi. unfold getitem.
  pose proof (lookup_lt_Some _ _ _ Hi) as Hlt.
  destruct (decide (Z.of_nat i < 0)) as [Hneg | _]; [lia |].
  destruct (decide (0 ≤ Z.of_nat i < Z.of_nat (length a))) as [_ | Hout]; [| lia].
  by rewrite Nat2Z.id, Hi.
Qed.

(** With the label's own [index] field as the subscript the colormap can
    give another label's colour: the rows are in list order. *)
Lemma get_colormap_by_label_index_fails :
  ¬ (∀ (sm : SegmentationMap) (lbl : Label), lbl ∈ labels sm →
       getitem (get_colormap sm) (index lbl) = Return (color lbl)).
Proof.
  intros H.
  specialize (H (mk_SegmentationMap [mk_Label 1 (0, 0, 0) None;
                                     mk_Label 0 (255, 255, 255) None])
                (mk_Label 1 (0, 0, 0) None)).
  assert (Hin : mk_Label 1 (0, 0, 0) None
                ∈ [mk_Label 1 (0, 0, 0) None; mk_Label 0 (255, 255, 255) None])
    by left.
  specialize (H Hin). vm_compute in H. discriminate H.
Qed.

(** C6 (amended).  The colormap of a SegmentationMap has one row per
    label, in list order: subscripted with a position of the labels list
    it gives the colour of the label at that position.  It gives a label's
    colour under that label's [index] field whenever the field equals the
    label's position. *)
Theorem get_colormap_by_position (sm : SegmentationMap) :
  length (get_colormap sm) = length (labels sm)
  ∧ ∀ (i : nat) (lbl : Label), labels sm !! i = Some lbl →
      getitem (get_colormap sm) (Z.of_nat i) = Return (color lbl)
      ∧ (index lbl = Z.of_nat i →
         getitem (get_colormap sm) (index lbl) = Return (color lbl)).
Proof.
  unfold get_colormap. split; [apply length_map |].
  intros i lbl Hi.
  assert (Hrow : map color (labels sm) !! i = Some (color lbl))
    by (by rewrite list_lookup_fmap, Hi).
  split.
  - by apply getitem_position.
  - intros ->. by apply getitem_position.
Qed.

Lemma get_colormap_by_position_witness :
  getitem (get_colormap CityScapesSegmentation) 13 = Return (0, 0, 142)
  ∧ getitem (get_colormap CityScapesSegmentation)
      (index (mk_Label 13 (0, 0, 142) (Some "car"%string))) = Return (0, 0, 142).
Proof.
  destruct (get_colormap_by_position CityScapesSegmentation) as [_ H].
  destruct (H 13%nat (mk_Label 13 (0, 0, 142) (Some "car"%string)) eq_refl)
    as [H1 H2].
  split; [exact H1 | exact (H2 eq_refl)].
Defined.

(** In both predefined maps every label sits at the position its [index]
    names, so there the colormap is indexed by label index. *)
Lemma predefined_maps_indexed_by_label_index (sm : SegmentationMap) (lbl : Label) :
  sm = CityScapesSegmentation ∨ sm = BinarySegmentation →
  lbl ∈ labels sm →
  getitem (get_colormap sm) (index lbl) = Return (color lbl).
Proof.
  intros [-> | ->] Hin; simpl in Hin;
    repeat (apply elem_of_cons in Hin as [-> | Hin]; [reflexivity |]);
    by apply elem_of_nil in Hin.
Qed.

(** *** segmentation_map_to_image on a small map

    Class 1 around one pixel of class 7, as the test mask of the notebook
    has a hole in its square; the second colour shows the conversion of
    colour components to 8 bits. *)

Example hole_kept_without_remove_holes :
  segmentation_map_to_image (mk_ndarray [3; 3]%nat [1; 1; 1; 1; 7; 1; 1; 1; 1])
    [(10, 20, 30); (255, 300, -5); (1, 2, 3)] false
  = Return (mk_ndarray [3; 3; 3]%nat
      [255; 255; 0; 255; 255; 0; 255; 255; 0;
       255; 255; 0; 0; 0; 0; 255; 255; 0;
       255; 255; 0; 255; 255; 0; 255; 255; 0]).
Proof. reflexivity. Qed.

Example hole_filled_with_remove_holes :
  segmentation_map_to_image (mk_ndarray [3; 3]%nat [1; 1; 1; 1; 7; 1; 1; 1; 1])
    [(10, 20, 30); (255, 300, -5); (1, 2, 3)] true
  = Return (mk_ndarray [3; 3; 3]%nat
      [255; 255; 0; 255; 255; 0; 255; 255; 0;
       255; 255; 0; 255; 255; 0; 255; 255; 0;
       255; 255; 0; 255; 255; 0; 255; 255; 0]).
Proof. reflexivity. Qed.

Example leading_one_is_squeezed :
  segmentation_map_to_image (mk_ndarray [1; 2; 2]%nat [0; 1; 2; 0])
    [(10, 20, 30); (40, 50, 60); (1, 2, 3)] false
  = Return (mk_ndarray [2; 2; 3]%nat [10; 20; 30; 40; 50; 60; 1; 2; 3; 10; 20; 30]).
Proof. reflexivity. Qed.

(** *** Rejections of segmentation_map_to_image *)

(** X6.  A rank other than 2 with a leading dimension other than 1 is
    refused with ValueError. *)
Lemma bad_shape_raises_ValueError (result : ndarray Z) colormap remove_holes d0 sh :
  shape result = d0 :: sh → length sh ≠ 1%nat → d0 ≠ 1%nat →
  segmentation_map_to_image result colormap remove_holes = Raise ValueError.
Proof.
  intros Hsh Hlen Hd0. unfold segmentation_map_to_image, ndim, shape_at.
  rewrite Hsh. simpl.
  destruct (decide (S (length sh) ≠ 2%nat)) as [_ | Hn]; [| lia].
  simpl. by rewrite bool_decide_true.
Qed.

(** C4 (failing input).  A one-dimensional result of shape (1,) is neither
    (H, W) nor (1, H, W), yet it passes the shape test, whose second
    conjunct only looks at the leading dimension; the call then fails with
    IndexError when the squeezed array is asked for its dimensions. *)
Theorem shape_1_not_rejected :
  segmentation_map_to_image (mk_ndarray [1%nat] [0]) [(0, 0, 0)] false
  = Raise IndexError.
Proof. reflexivity. Qed.

(** The same test lets a four-dimensional result with leading dimension 1
    through; it ends in OpenCV's own error. *)
Lemma shape_1_2_2_3_not_rejected :
  segmentation_map_to_image
    (mk_ndarray [1; 2; 2; 3]%nat (replicate 12 0)) [(0, 0, 0)] false
  = Raise cv2_error.
Proof. reflexivity. Qed.

(** A zero-dimensional result has no leading dimension to look at. *)
Lemma shape_0d_IndexError colormap remove_holes :
  segmentation_map_to_image (mk_ndarray [] [0]) colormap remove_holes
  = Raise IndexError.
Proof. reflexivity. Qed.

(** X7.  With a colormap of at least one row, more distinct values than
    rows end in ValueError whatever the shape of a result of rank at least
    1. *)
Lemma too_many_values_raises_ValueError (result : ndarray Z) c colormap remove_holes :
  shape result ≠ [] →
  (length (c :: colormap) < n_unique result)%nat →
  segmentation_map_to_image result (c :: colormap) remove_holes = Raise ValueError.
Proof.
  intros Hsh Hlt. unfold segmentation_map_to_image, ndim, shape_at.
  destruct (shape result) as [|d0 sh] eqn:E; [done |]. simpl.
  destruct (decide (S (length sh) ≠ 2%nat)) as [_ | _]; simpl.
  - destruct (bool_decide (d0 ≠ 1%nat)); [done |].
    destruct (decide _) as [_ | Hge]; [done | simpl in *; lia].
  - destruct (decide _) as [_ | Hge]; [done | simpl in *; lia].
Qed.

(** C3 (failing input).  One distinct value against a colormap without
    rows: the count exceeds the number of rows, but the message of the
    ValueError is built from [colormap[0]], which does not exist, and the
    call ends in IndexError instead. *)
Theorem too_many_values_empty_colormap :
  n_unique (mk_ndarray [1; 1]%nat [0]) = 1%nat
  ∧ length ([] : colormap_t) = 0%nat
  ∧ segmentation_map_to_image (mk_ndarray [1; 1]%nat [0]) [] false
    = Raise IndexError.
Proof. repeat split. Qed.

(** *** Accepted inputs of segmentation_map_to_image *)

Lemma saturate_u8_range v : 0 ≤ saturate_u8 v < 256.
Proof. unfold saturate_u8. lia. Qed.

Lemma findContours_2d (r : ndarray Z) (k : nat) (mode : RetrievalModes) (H W : nat) :
  shape r = [H; W] →
  findContours (label_index_map r k) mode
  = Return (let fg := map (λ v, bool_decide (v ≠ 0)) (data (label_index_map r k)) in
            match mode with
            | RETR_TREE => fg
            | RETR_EXTERNAL => fill_external H W fg
            end).
Proof. intros Hsh. unfold findContours, as_gray. simpl. by rewrite Hsh. Qed.

Lemma tree_region_lookup (r : ndarray Z) (k p : nat) (v : Z) :
  data r !! p = Some v →
  map (λ v, bool_decide (v ≠ 0)) (data (label_index_map r k)) !! p
  = Some (bool_decide (v = Z.of_nat k)).
Proof.
  intros Hp. unfold label_index_map. simpl.
  rewrite !list_lookup_fmap, Hp. simpl. f_equal.
  destruct (decide (v = Z.of_nat k)) as [Heq | Hne].
  - by rewrite bool_decide_true, bool_decide_true.
  - by rewrite bool_decide_false, bool_decide_false by (done || lia).
Qed.

(** On a mask with pixels [drawContours] fills the area. *)
Lemma drawContours_nonempty (mask : ndarray Z) (cs : Contours) (c : rgb) :
  size_of (shape mask) ≠ 0%nat → drawContours mask cs c = Return (paint mask cs c).
Proof. intros Hne. unfold drawContours. by rewrite decide_False. Qed.

Lemma drawContours_empty (mask : ndarray Z) (cs : Contours) (c : rgb) :
  size_of (shape mask) = 0%nat → drawContours mask cs c = Raise cv2_error.
Proof. intros He. unfold drawContours. by rewrite decide_True. Qed.

Lemma paint_lookup (mask : ndarray Z) (cs : Contours) (c : rgb) (q : nat) :
  default false (cs !! (q / 3)%nat) = false →
  data (paint mask cs c) !! q = data mask !! q.
Proof.
  intros Hout. unfold paint. cbn [data].
  rewrite list_lookup_imap. destruct (data mask !! q); [| done].
  unfold fmap, option_fmap, option_map. by rewrite Hout.
Qed.

Lemma paint_u8 (mask : ndarray Z) (cs : Contours) (c : rgb) :
  Forall (λ v, 0 ≤ v < 256) (data mask) →
  Forall (λ v, 0 ≤ v < 256) (data (paint mask cs c)).
Proof.
  intros Hm. apply Forall_lookup. intros q x Hq.
  unfold paint in Hq. cbn [data] in Hq.
  rewrite list_lookup_imap in Hq.
  destruct (data mask !! q) as [y|] eqn:Hy; [| done].
  unfold fmap, option_fmap, option_map in Hq. injection Hq as <-.
  match goal with |- context [if ?b then _ else _] => destruct b end.
  - apply saturate_u8_range.
  - by eapply (proj1 (Forall_lookup _ _) Hm).
Qed.

(** On a mask with pixels, the loop over the colormap keeps the mask's
    shape, size and 8-bit range; with [RETR_TREE] it leaves every pixel
    alone whose value is not one of the label indices it runs through. *)
Lemma draw_labels_spec (mode : RetrievalModes) (r : ndarray Z) (H W : nat)
    (colors : list rgb) :
  shape r = [H; W] →
  ∀ (k : nat) (mask : ndarray Z),
  size_of (shape mask) ≠ 0%nat →
  ∃ mask', draw_labels mode r k colors mask = Return mask'
    ∧ shape mask' = shape mask
    ∧ length (data mask') = length (data mask)
    ∧ (Forall (λ v, 0 ≤ v < 256) (data mask) →
       Forall (λ v, 0 ≤ v < 256) (data mask'))
    ∧ (mode = RETR_TREE → ∀ (p q : nat) (v : Z),
         data r !! p = Some v →
         ¬ (Z.of_nat k ≤ v < Z.of_nat k + Z.of_nat (length colors)) →
         (q / 3)%nat = p →
         data mask' !! q = data mask !! q).
Proof.
  intros Hsh. induction colors as [|c rest IH]; intros k mask Hne.
  - exists mask. simpl. repeat split; auto.
  - cbn [draw_labels]. rewrite (findContours_2d _ _ _ _ _ Hsh).
    cbn [mbind outcome_bind obind].
    rewrite drawContours_nonempty by exact Hne.
    match goal with
    | |- context [paint mask ?cs c] => set (region := cs)
    end.
    destruct (IH (S k) (paint mask region c) Hne)
      as (mask' & Hrun & Hshape & Hlen & Hu8 & Hkeep).
    exists mask'. split; [exact Hrun |]. repeat split.
    + by rewrite Hshape.
    + rewrite Hlen. unfold paint. simpl. apply length_imap.
    + intros Hm. apply Hu8. by apply paint_u8.
    + intros Hmode p q v Hp Hv Hq.
      rewrite (Hkeep Hmode p q v Hp) by (done || simpl length in Hv; lia).
      apply paint_lookup. rewrite Hq.
      subst region. rewrite Hmode.
      rewrite (tree_region_lookup _ _ _ _ Hp). simpl.
      apply bool_decide_false. simpl length in Hv. lia.
Qed.

Lemma div3 (p c : nat) : (c < 3)%nat → ((3 * p + c) / 3)%nat = p.
Proof. intros Hc. symmetry. apply (Nat.div_unique _ _ _ c); lia. Qed.

Lemma accepted_reaches_loop (result : ndarray Z) (colormap : colormap_t)
    (remove_holes : bool) (H W : nat) :
  (shape result = [H; W] ∧ H ≠ 1%nat) ∨ shape result = [1%nat; H; W] →
  (n_unique result ≤ length colormap)%nat →
  segmentation_map_to_image result colormap remove_holes
  = draw_labels (if remove_holes then RETR_EXTERNAL else RETR_TREE)
      (astype_uint8 (mk_ndarray [H; W] (data result))) 0 colormap (zeros3 H W).
Proof.
  intros Hshape Hle. destruct result as [sh d].
  unfold segmentation_map_to_image, ndim, shape_at, n_unique in *.
  cbn [shape data] in *.
  destruct (decide (length colormap < length (remove_dups d))%nat) as [Hgt | _];
    [lia |].
  destruct Hshape as [[-> Hne] | ->]; cbn.
  - by rewrite decide_False by done.
  - done.
Qed.

(** X8.  A two-dimensional result with a single row is squeezed as if it
    were (1, H, W); the one-dimensional array left has no second dimension
    for the mask, and the call ends in IndexError. *)
Lemma single_row_IndexError (result : ndarray Z) (colormap : colormap_t)
    (remove_holes : bool) (W : nat) :
  shape result = [1%nat; W] →
  (n_unique result ≤ length colormap)%nat →
  segmentation_map_to_image result colormap remove_holes = Raise IndexError.
Proof.
  intros Hshape Hle. destruct result as [sh d].
  unfold segmentation_map_to_image, ndim, shape_at, n_unique in *.
  cbn [shape data] in *. subst sh.
  destruct (decide (length colormap < length (remove_dups d))%nat) as [Hgt | _];
    [lia |].
  reflexivity.
Qed.

(** A colour component that does not fit 32 bits is drawn as 0, one above
    255 that does as 255, a negative one as 0. *)
Example colour_beyond_32_bits :
  saturate_u8 (2 ^ 31) = 0 ∧ saturate_u8 (2 ^ 31 - 1) = 255 ∧ saturate_u8 (-1) = 0
  ∧ segmentation_map_to_image (mk_ndarray [1; 1; 1]%nat [0]) [(2 ^ 31, 256, 7)] false
    = Return (mk_ndarray [1; 1; 3]%nat [0; 255; 7]).
Proof. repeat split. Qed.

(** Class indices are compared after the conversion to unsigned 8-bit
    integers: 257 is drawn as class 1. *)
Example class_index_wraps :
  segmentation_map_to_image (mk_ndarray [2; 2]%nat [257; 0; 0; 0])
    [(1, 1, 1); (9, 9, 9)] false
  = Return (mk_ndarray [2; 2; 3]%nat [9; 9; 9; 1; 1; 1; 1; 1; 1; 1; 1; 1]).
Proof. reflexivity. Qed.

(** As stated for all accepted inputs the property fails: with
    [remove_holes=True] the filled outer contour of class 1 covers the
    enclosed pixel of class 7, which matches no row of a three-row
    colormap. *)
Lemma accepted_input_claim_fails :
  ¬ (∀ (result : ndarray Z) (colormap : colormap_t) (remove_holes : bool)
       (H W : nat),
       wf_ndarray result →
       shape result = [H; W] ∨ shape result = [1%nat; H; W] →
       (n_unique result ≤ length colormap)%nat →
       ∃ mask, segmentation_map_to_image result colormap remove_holes = Return mask
         ∧ shape mask = [H; W; 3%nat]
         ∧ Forall (λ v, 0 ≤ v < 256) (data mask)
         ∧ ∀ (i j : nat) (v : Z), (i < H)%nat → (j < W)%nat →
             data result !! (i * W + j)%nat = Some v →
             ¬ (0 ≤ v < Z.of_nat (length colormap)) →
             pixel W mask i j = Some (0, 0, 0)).
Proof.
  intros Hclaim.
  destruct (Hclaim (mk_ndarray [3; 3]%nat [1; 1; 1; 1; 7; 1; 1; 1; 1])
              [(10, 20, 30); (255, 0, 0); (1, 2, 3)] true 3%nat 3%nat)
    as (mask & Hrun & _ & _ & Hpix).
  - reflexivity.
  - by left.
  - vm_compute. lia.
  - vm_compute in Hrun. injection Hrun as <-.
    specialize (Hpix 1%nat 1%nat 7).
    assert (Hp : pixel 3
              (mk_ndarray [3; 3; 3]%nat
                 [255; 0; 0; 255; 0; 0; 255; 0; 0; 255; 0; 0; 255; 0; 0; 255; 0; 0;
                  255; 0; 0; 255; 0; 0; 255; 0; 0]) 1 1 = Some (0, 0, 0)).
    { apply Hpix; [lia | lia | reflexivity | simpl; lia]. }
    vm_compute in Hp. discriminate Hp.
Qed.

Lemma size_of_3 (a b c : nat) : size_of [a; b; c] = (a * b * c)%nat.
Proof. cbn. lia. Qed.

(** The loop on a mask without pixels: nothing happens without a colour,
    and the first [drawContours] raises otherwise. *)
Lemma draw_labels_empty (mode : RetrievalModes) (r : ndarray Z) (H W : nat)
    (colors : list rgb) (k : nat) (mask : ndarray Z) :
  shape r = [H; W] →
  size_of (shape mask) = 0%nat →
  draw_labels mode r k colors mask
  = match colors with
    | [] => Return mask
    | _ :: _ => Raise cv2_error
    end.
Proof.
  intros Hsh He. destruct colors as [|c rest]; [done |].
  cbn [draw_labels]. rewrite (findContours_2d _ _ _ _ _ Hsh).
  cbn [mbind outcome_bind obind]. by rewrite drawContours_empty.
Qed.

(** C10 (amended).  Take a result of shape (H, W) with more than one row
    or no row, or of shape (1, H, W), whose number of distinct values does
    not exceed the number of colormap rows.  When the result has pixels (H
    and W are not 0), or the colormap has no rows,
    [segmentation_map_to_image] returns a mask of shape (H, W, 3) with
    entries in 0..255; and with [remove_holes=False] every pixel whose
    value, converted to an unsigned 8-bit integer, is not the index of a
    colormap row stays (0, 0, 0).  When the result has no pixels and the
    colormap has a row, the call ends in OpenCV's cv2.error. *)
Theorem accepted_input_mask (result : ndarray Z) (colormap : colormap_t)
    (remove_holes : bool) (H W : nat) :
  (shape result = [H; W] ∧ H ≠ 1%nat) ∨ shape result = [1%nat; H; W] →
  (n_unique result ≤ length colormap)%nat →
  ((H ≠ 0%nat ∧ W ≠ 0%nat) ∨ colormap = [] →
   ∃ mask, segmentation_map_to_image result colormap remove_holes = Return mask
     ∧ shape mask = [H; W; 3%nat]
     ∧ wf_ndarray mask
     ∧ Forall (λ v, 0 ≤ v < 256) (data mask)
     ∧ (remove_holes = false →
        ∀ (i j : nat) (v : Z), (i < H)%nat → (j < W)%nat →
          data result !! (i * W + j)%nat = Some v →
          ¬ (v mod 256 < Z.of_nat (length colormap)) →
          pixel W mask i j = Some (0, 0, 0)))
  ∧ ((H = 0%nat ∨ W = 0%nat) → colormap ≠ [] →
     segmentation_map_to_image result colormap remove_holes = Raise cv2_error).
Proof.
  intros Hshape Hle.
  rewrite (accepted_reaches_loop _ _ _ _ _ Hshape Hle).
  set (r := astype_uint8 (mk_ndarray [H; W] (data result))).
  set (mode := if remove_holes then RETR_EXTERNAL else RETR_TREE).
  assert (Hzeros : ∀ c, (c < 3)%nat → ∀ p, (p < H * W)%nat →
            data (zeros3 H W) !! (3 * p + c)%nat = Some 0).
  { intros c Hc p Hp. unfold zeros3. cbn [data]. apply lookup_replicate_2. lia. }
  assert (Hpixel : ∀ (mask : ndarray Z) (i j : nat),
            (∀ c, (c < 3)%nat → data mask !! (3 * (i * W + j) + c)%nat = Some 0) →
            pixel W mask i j = Some (0, 0, 0)).
  { intros mask i j Hz. unfold pixel.
    pose proof (Hz 0%nat ltac:(lia)) as H0.
    pose proof (Hz 1%nat ltac:(lia)) as H1.
    pose proof (Hz 2%nat ltac:(lia)) as H2.
    replace (3 * (i * W + j) + 0)%nat with (3 * (i * W + j))%nat in H0 by lia.
    replace (3 * (i * W + j) + 1)%nat with (S (3 * (i * W + j)))%nat in H1 by lia.
    replace (3 * (i * W + j) + 2)%nat with (S (S (3 * (i * W + j))))%nat in H2 by lia.
    by rewrite H0, H1, H2. }
  split.
  - intros Hcase.
    destruct (decide (H ≠ 0%nat ∧ W ≠ 0%nat)) as [[HH HW] | Hempty].
    + destruct (draw_labels_spec mode r H W colormap eq_refl 0%nat (zeros3 H W))
        as (mask & Hrun & Hsh & Hlen & Hu8 & Hkeep).
      { unfold zeros3. cbn [shape]. rewrite size_of_3. nia. }
      exists mask. split; [exact Hrun |].
      assert (Hlen' : length (data mask) = (H * W * 3)%nat).
      { rewrite Hlen. unfold zeros3. cbn [data]. apply length_replicate. }
      repeat split.
      * by rewrite Hsh.
      * unfold wf_ndarray. rewrite Hsh, Hlen'. unfold zeros3. cbn. lia.
      * apply Hu8. unfold zeros3. cbn [data]. apply Forall_replicate. lia.
      * intros Hrh i j v Hi Hj Hv Hno.
        assert (Hmode : mode = RETR_TREE) by (unfold mode; by rewrite Hrh).
        assert (Hr : data r !! (i * W + j)%nat = Some (v mod 256)).
        { unfold r, astype_uint8. cbn [data]. by rewrite list_lookup_fmap, Hv. }
        assert (Hrange : ¬ (Z.of_nat 0 ≤ v mod 256
                            < Z.of_nat 0 + Z.of_nat (length colormap))) by lia.
        assert (Hin : (i * W + j < H * W)%nat) by nia.
        apply Hpixel. intros c Hc.
        rewrite (Hkeep Hmode (i * W + j)%nat _ (v mod 256) Hr Hrange (div3 _ _ Hc)).
        by apply Hzeros.
    + destruct Hcase as [Hfull | ->]; [done |].
      exists (zeros3 H W). split; [reflexivity |]. repeat split.
      * unfold wf_ndarray, zeros3. cbn [data shape].
        rewrite length_replicate, size_of_3. lia.
      * unfold zeros3. cbn [data]. apply Forall_replicate. lia.
      * intros _ i j v Hi Hj _ _. apply Hpixel. intros c Hc.
        apply Hzeros; [done | nia].
  - intros Hempty Hrows.
    rewrite (draw_labels_empty mode r H W colormap 0 (zeros3 H W) eq_refl).
    + by destruct colormap.
    + unfold zeros3. cbn [shape]. rewrite size_of_3. nia.
Qed.

Lemma accepted_input_mask_witness :
  (∃ mask,
     segmentation_map_to_image (mk_ndarray [3; 3]%nat [1; 1; 1; 1; 7; 1; 1; 1; 1])
       [(10, 20, 30); (255, 0, 0); (1, 2, 3)] false = Return mask
     ∧ shape mask = [3; 3; 3]%nat
     ∧ pixel 3 mask 1 1 = Some (0, 0, 0))
  ∧ segmentation_map_to_image (mk_ndarray [2; 0]%nat []) [(10, 20, 30)] false
    = Raise cv2_error.
Proof.
  split.
  - destruct (accepted_input_mask
                (mk_ndarray [3; 3]%nat [1; 1; 1; 1; 7; 1; 1; 1; 1])
                [(10, 20, 30); (255, 0, 0); (1, 2, 3)] false 3%nat 3%nat)
      as [Hmask _].
    + left. split; [reflexivity | lia].
    + vm_compute. lia.
    + destruct Hmask as (mask & Hrun & Hsh & _ & _ & Hpix); [left; lia |].
      exists mask. split; [exact Hrun |]. split; [exact Hsh |].
      apply (Hpix eq_refl 1%nat 1%nat 7); [lia | lia | reflexivity |].
      vm_compute. intros Hlt. discriminate Hlt.
  - destruct (accepted_input_mask (mk_ndarray [2; 0]%nat []) [(10, 20, 30)]
                false 2%nat 0%nat) as [_ Herr].
    + left. split; [reflexivity | lia].
    + vm_compute. lia.
    + apply Herr; [by right | discriminate].
Defined.

End SegmentationFacts.

Module ChecksFacts.
Import Checks.
Local Open Scope string_scope.

Lemma NotebookAlert_init_shows (msg class : string) (s : Shown) :
  NotebookAlert_init msg class s
  = (Return (mk_NotebookAlert msg class), (s ++ [alert_html class msg])%list).
Proof. reflexivity. Qed.

(** Constructing the alert shows it and returns the object; nothing is
    raised, whatever the list of available devices. *)
Lemma DeviceNotFoundAlert_init_shows (ie : IECore) (device : string) (s : Shown) :
  DeviceNotFoundAlert_init ie device s
  = (Return (mk_NotebookAlert (device_warning ie device) "warning"),
     (s ++ [alert_html "warning" (device_warning ie device)])%list).
Proof.
  unfold DeviceNotFoundAlert_init, device_warning.
  destruct ie as [[|d0 [|d1 l]]]; cbn [available_devices length].
  - by rewrite decide_False.
  - by rewrite decide_True.
  - by rewrite decide_False.
Qed.

(** C9.  [check_device] returns True exactly when the device is among the
    available devices, showing nothing then; when the device is absent it
    shows the warning alert, returns False, and raises nothing. *)
Theorem check_device_spec (ie : IECore) (device : string) (s : Shown) :
  ∃ (b : bool) (s' : Shown),
    check_device ie device s = (Return b, s')
    ∧ (b = true ↔ device ∈ available_devices ie)
    ∧ (device ∈ available_devices ie → s' = s)
    ∧ (device ∉ available_devices ie →
       b = false
       ∧ s' = (s ++ [alert_html "warning" (device_warning ie device)])%list).
Proof.
  unfold check_device.
  destruct (decide (device ∉ available_devices ie)) as [Hout | Hin].
  - exists false, (s ++ [alert_html "warning" (device_warning ie device)])%list.
    unfold mbind, D_bind. rewrite DeviceNotFoundAlert_init_shows.
    repeat split; try done.
  - apply dec_stable in Hin. exists true, s. repeat split; try done.
Qed.

Lemma check_device_spec_witness :
  check_device (mk_IECore ["CPU"; "GNA"]) "CPU" [] = (Return true, [])
  ∧ (check_device (mk_IECore ["CPU"; "GNA"]) "HELLOWORLD" []).1 = Return false.
Proof.
  split.
  - destruct (check_device_spec (mk_IECore ["CPU"; "GNA"]) "CPU" [])
      as (b & s' & Hrun & Hb & Hin & _).
    assert (Hmem : "CPU" ∈ available_devices (mk_IECore ["CPU"; "GNA"])) by left.
    rewrite Hrun, (proj2 Hb Hmem), (Hin Hmem). reflexivity.
  - destruct (check_device_spec (mk_IECore ["CPU"; "GNA"]) "HELLOWORLD" [])
      as (b & s' & Hrun & _ & _ & Hout).
    assert (Hmem : "HELLOWORLD" ∉ available_devices (mk_IECore ["CPU"; "GNA"])).
    { cbn. intros Hm. repeat (apply elem_of_cons in Hm as [Hm | Hm]; [discriminate Hm |]).
      by apply elem_of_nil in Hm. }
    rewrite Hrun. cbn. f_equal. exact (proj1 (Hout Hmem)).
Defined.

End ChecksFacts.

Module FilesFacts.
Import Files.
Local Open Scope string_scope.
Local Open Scope list_scope.

Example parts_examples :
  map (λ s, parts (Path_of s)) ["a/b"; "a"; "a//b/./c"; "./a"; "/a"; "//a"; ""; ".."]
  = [["a"; "b"]; ["a"]; ["a"; "b"; "c"]; ["a"]; ["/"; "a"]; ["//"; "a"]; []; [".."]].
Proof. reflexivity. Qed.

Example name_examples :
  map (λ s, name (Path_of s)) ["/notebooks/model/segmentation.xml"; "/"; "a/b/"]
  = ["segmentation.xml"; ""; "b"].
Proof. reflexivity. Qed.


Lemma retrievals_snoc (l : list event) (e : event) :
  is_retrieval e = false → retrievals (l ++ [e]) = retrievals l.
Proof.
  intros He. unfold retrievals. rewrite filter_app, filter_cons_False by congruence.
  by rewrite filter_nil, app_nil_r.
Qed.

(** The first part of [download_file], up to the test on the file name,
    for a URL that opens. *)
Lemma download_file_opened (w : World) (url : string) (filename directory : option string)
    (show_progress silent : bool) (r : Response) :
  remote w url = Responds r →
  (1 < length (parts (Path_of (default (default_filename w url r) filename))))%nat →
  download_file url filename directory show_progress silent w
  = (Raise ValueError, with_event w (Opened url)).
Proof.
  intros Hr Hparts.
  unfold download_file, try_except_HTTPError, mbind, M_bind, urlopen.
  rewrite Hr. destruct filename as [f|]; cbn [default] in Hparts.
  - cbn [mret M_ret]. by rewrite decide_True.
  - unfold default_filename_. cbn [mret M_ret].
    change (default_filename (with_event w (Opened url)) url r)
      with (default_filename w url r).
    by rewrite decide_True.
Qed.

Lemma download_file_http_error (w : World) (url : string) (filename directory : option string)
    (show_progress silent : bool) (code : Z) (msg : string) :
  remote w url = FailsHTTP code msg →
  download_file url filename directory show_progress silent w
  = (Raise (Exception ("File downloading failed with error: "
                       +:+ pretty code +:+ " " +:+ msg)), w).
Proof.
  intros Hr.
  unfold download_file, try_except_HTTPError, mbind, M_bind, urlopen.
  by rewrite Hr.
Qed.

Lemma download_file_unreachable (w : World) (url : string) (filename directory : option string)
    (show_progress silent : bool) :
  remote w url = Unreachable →
  download_file url filename directory show_progress silent w = (Raise URLError, w).
Proof.
  intros Hr.
  unfold download_file, try_except_HTTPError, mbind, M_bind, urlopen.
  by rewrite Hr.
Qed.

(** *** File names with a directory part *)

(** A failing fetch is reported before the file name is looked at. *)
Lemma bad_filename_claim_fails :
  ¬ (∀ (w : World) (url f : string) (directory : option string)
       (show_progress silent : bool),
       (1 < length (parts (Path_of f)))%nat →
       (download_file url (Some f) directory show_progress silent w).1
       = Raise ValueError).
Proof.
  intros Hclaim.
  specialize (Hclaim
    (mk_World (λ _, "/x") (λ _, FailsHTTP 404 "Not Found") [] (λ _, None) [])
    "http://host/x" "a/b" None true false).
  assert (Hparts : (1 < length (parts (Path_of "a/b")))%nat) by (vm_compute; lia).
  specialize (Hclaim Hparts).
  vm_compute in Hclaim. discriminate Hclaim.
Qed.

(** A separator alone does not make a second component. *)
Lemma trailing_separator_one_part : parts (Path_of "a/") = ["a"].
Proof. reflexivity. Qed.

(** C7 (amended).  When the [filename] argument has more than one path
    component, [download_file] ends in an exception without writing or
    retrieving anything; the exception is ValueError whenever the URL could
    be opened. *)
Theorem bad_filename_rejected (w : World) (url f : string)
    (directory : option string) (show_progress silent : bool) :
  (1 < length (parts (Path_of f)))%nat →
  ∃ (e : exn) (w' : World),
    download_file url (Some f) directory show_progress silent w = (Raise e, w')
    ∧ fs w' = fs w
    ∧ retrievals (log w') = retrievals (log w)
    ∧ (∀ r, remote w url = Responds r → e = ValueError).
Proof.
  intros Hparts. destruct (remote w url) as [r | code msg |] eqn:Hr.
  - exists ValueError, (with_event w (Opened url)).
    rewrite (download_file_opened _ _ _ _ _ _ r Hr) by done.
    repeat split. cbn [log with_event]. by apply retrievals_snoc.
  - eexists _, w. rewrite (download_file_http_error _ _ _ _ _ _ _ _ Hr).
    repeat split. intros r Hr'. discriminate Hr'.
  - exists URLError, w. rewrite (download_file_unreachable _ _ _ _ _ _ Hr).
    repeat split. intros r Hr'. discriminate Hr'.
Qed.

Lemma bad_filename_rejected_witness :
  ∃ w', download_file "http://host/readme.md" (Some "docs/readme.md") None true false
          (mk_World (λ _, "/readme.md")
             (λ _, Responds (mk_Response None (Some 2%Z) [x00; x01]%byte))
             [] (λ _, None) [])
        = (Raise ValueError, w')
    ∧ fs w' = (λ _, None).
Proof.
  destruct (bad_filename_rejected
              (mk_World (λ _, "/readme.md")
                 (λ _, Responds (mk_Response None (Some 2%Z) [x00; x01]%byte))
                 [] (λ _, None) [])
              "http://host/readme.md" "docs/readme.md" None true false)
    as (e & w' & Hrun & Hfs & _ & He).
  - vm_compute. lia.
  - exists w'. rewrite Hrun, (He _ eq_refl). split; [reflexivity | exact Hfs].
Defined.

(** *** A file that is already there *)

Lemma mkdir_rev_existing (f : list string → option node) (rp : list string) :
  lookup_abs f (rev rp) = Some Dir → mkdir_rev f rp = Return f.
Proof. intros H. destruct rp; cbn [mkdir_rev]; by rewrite H. Qed.




(** *** Downloading both files of a model *)

Lemma length_append (s1 s2 : string) :
  String.length (s1 +:+ s2) = (String.length s1 + String.length s2)%nat.
Proof. induction s1 as [|c s1 IH]; [done |]. simpl. by rewrite IH. Qed.

Lemma substring_prefix (s1 s2 : string) :
  String.substring 0 (String.length s1) (s1 +:+ s2) = s1.
Proof. induction s1 as [|c s1 IH]; [by destruct s2 |]. simpl. by rewrite IH. Qed.

(** Cutting the last four characters and appending [".bin"] replaces a
    four-character extension such as [".xml"]. *)
Lemma drop_last4_extension (stem ext : string) :
  String.length ext = 4%nat → drop_last4 (stem +:+ ext) = stem.
Proof.
  intros Hext. unfold drop_last4. rewrite length_append, Hext.
  replace (String.length stem + 4 - 4)%nat with (String.length stem) by lia.
  apply substring_prefix.
Qed.

Lemma normalize_snoc (l : list string) (n : string) :
  n ≠ ".." → normalize (l ++ [n]) = normalize l ++ [n].
Proof.
  intros Hn. unfold normalize. rewrite foldl_app. cbn [foldl].
  by rewrite decide_False.
Qed.

Lemma lookup_abs_snoc (f : list string → option node) (l : list string) (c : string) :
  lookup_abs f (l ++ [c]) = f (l ++ [c]).
Proof. by destruct l. Qed.

(** Where the file of a plain name lands. *)
Lemma resolve_comps_target (w : World) (directory : option string) (n : string) :
  plain_name n →
  resolve_comps w (target_path directory n)
  = resolve_comps w (dir_path directory) ++ [n].
Proof.
  intros [Hp Hn]. unfold target_path, dir_path, resolve_comps.
  destruct directory as [d|]; rewrite Hp.
  - unfold joinpath. cbn [root comps].
    destruct (decide ("" = "")) as [_ | Hne]; [| done].
    cbn [root comps]. rewrite app_assoc. by apply normalize_snoc.
  - cbn [root comps].
    destruct (decide ("" = "")) as [_ | Hne]; [| done].
    rewrite app_nil_r. by apply normalize_snoc.
Qed.

Lemma mkdir_rev_makes (rp : list string) (f : list string → option node) :
  (∀ p c, p `prefix_of` rev rp → lookup_abs f p ≠ Some (File c)) →
  ∃ f', mkdir_rev f rp = Return f'
    ∧ lookup_abs f' (rev rp) = Some Dir
    ∧ grown (rev rp) f f'.
Proof.
  induction rp as [|c rparent IH]; intros Hnofile.
  - exists f. repeat split. intros q. by left.
  - cbn [mkdir_rev].
    destruct (lookup_abs f (rev (c :: rparent))) as [[content|]|] eqn:Hself.
    + by destruct (Hnofile (rev (c :: rparent)) content).
    + exists f. repeat split; [done |]. intros q. by left.
    + cbn [rev] in *. rewrite lookup_abs_snoc in Hself.
      assert (Hupd : ∀ g, lookup_abs (update g (rev rparent ++ [c]) Dir)
                            (rev rparent ++ [c]) = Some Dir).
      { intros g. rewrite lookup_abs_snoc. unfold update. by rewrite decide_True. }
      destruct (lookup_abs f (rev rparent)) as [[content|]|] eqn:Hparent.
      * destruct (Hnofile (rev rparent) content); [| done].
        by apply prefix_app_r.
      * exists (update f (rev rparent ++ [c]) Dir). repeat split; [apply Hupd |].
        intros q. unfold update. destruct (decide (q = rev rparent ++ [c])) as [-> | _].
        -- by right.
        -- by left.
      * destruct IH as (f1 & Hrun & Hdir & Hgrown).
        { intros p content Hp. apply Hnofile. by apply prefix_app_r. }
        rewrite Hrun. cbn [mbind outcome_bind obind].
        exists (update f1 (rev rparent ++ [c]) Dir). repeat split; [apply Hupd |].
        intros q. unfold update. destruct (decide (q = rev rparent ++ [c])) as [-> | _].
        -- by right.
        -- destruct (Hgrown q) as [Heq | (Hnone & Hnew & Hpre)]; [by left |].
           right. repeat split; [done | done |]. by apply prefix_app_r.
Qed.

(** What is read of a body that is not longer than announced is the whole
    body. *)
Lemma received_all (r : Response) :
  (∀ size, content_length r = Some size → (Z.of_nat (length (body r)) ≤ size)%Z) →
  received r = body r.
Proof.
  intros Hle. unfold received. destruct (content_length r) as [size|]; [| done].
  destruct (decide (0 ≤ size)%Z) as [Hpos | _]; [| done].
  apply take_ge. specialize (Hle size eq_refl). lia.
Qed.

(** Of a body that is not shorter than announced exactly the announced
    number of bytes is read. *)
Lemma received_length (r : Response) (size : Z) :
  content_length r = Some size → (0 ≤ size ≤ Z.of_nat (length (body r)))%Z →
  Z.of_nat (length (received r)) = size.
Proof.
  intros Hsize Hle. unfold received. rewrite Hsize.
  rewrite decide_True by lia. rewrite length_take. lia.
Qed.

(** Fewer bytes than announced are read exactly when the body is shorter
    than announced. *)
Lemma received_short (r : Response) (size : Z) :
  content_length r = Some size → (0 ≤ size)%Z →
  (Z.of_nat (length (received r)) < size ↔ Z.of_nat (length (body r)) < size)%Z.
Proof.
  intros Hsize Hpos. unfold received. rewrite Hsize.
  rewrite decide_True by lia. rewrite length_take. lia.
Qed.


Lemma lookup_abs_update_other (f : list string → option node) (t q : list string)
    (n : node) :
  q ≠ t → lookup_abs (update f t n) q = lookup_abs f q.
Proof. intros Hne. destruct q; [done |]. cbn. unfold update. by rewrite decide_False. Qed.

Lemma snoc_not_prefix (base : list string) (n : string) :
  ¬ (base ++ [n]) `prefix_of` base.
Proof.
  intros Hpre. apply prefix_length in Hpre.
  rewrite length_app in Hpre. cbn in Hpre. lia.
Qed.


Lemma urlretrieve_run (w : World) (url : string) (p : Path) (r : Response) :
  remote w url = Responds r →
  lookup_abs (fs w) (resolve_comps w p) ≠ Some Dir →
  lookup_abs (fs w) (removelast (resolve_comps w p)) = Some Dir →
  urlretrieve url p w
  = (match content_length r with
     | Some size =>
         if decide (0 ≤ size ∧ Z.of_nat (length (received r)) < size)%Z
         then Raise ContentTooShortError else Return ()
     | None => Return ()
     end,
     with_event
       (with_fs (with_event w (Opened url))
          (update (fs w) (resolve_comps w p) (File (received r))))
       (Retrieved url (resolve_comps w p))).
Proof.
  intros Hr Hnd Hparent.
  unfold urlretrieve, mbind, M_bind, urlopen, write_file, log_event.
  rewrite Hr. cbn [fs with_event cwd resolve_comps].
  change (resolve_comps (with_event w (Opened url)) p) with (resolve_comps w p).
  rewrite Hparent.
  destruct (lookup_abs (fs w) (resolve_comps w p)) as [[c|]|] eqn:Hself;
    [| done |];
    (destruct (content_length r) as [size|]; [| reflexivity];
     by destruct (decide _)).
Qed.

(** The run of [download_file] when the file is missing or has another
    size than announced: the directory is made, what is read of the body
    is written to the file, and the call returns the resolved path, or
    raises when the body is shorter than announced. *)
Lemma download_file_retrieves (w : World) (url : string)
    (filename directory : option string) (show_progress silent : bool) (r : Response) :
  remote w url = Responds r →
  let n := default (default_filename w url r) filename in
  let base := resolve_comps w (dir_path directory) in
  plain_name n →
  dir_available (fs w) directory base →
  fs w (base ++ [n]) ≠ Some Dir →
  (∀ c, fs w (base ++ [n]) = Some (File c) →
        Z.of_nat (length c) ≠ default 0%Z (content_length r)) →
  ∃ f' w',
    download_file url filename directory show_progress silent w
    = (match content_length r with
       | Some size =>
           if decide (0 ≤ size ∧ Z.of_nat (length (received r)) < size)%Z
           then Raise ContentTooShortError
           else Return (resolve w (target_path directory n))
       | None => Return (resolve w (target_path directory n))
       end, w')
    ∧ grown base (fs w) f'
    ∧ (lookup_abs (fs w) base = Some Dir → f' = fs w)
    ∧ fs w' = update f' (base ++ [n]) (File (received r))
    ∧ lookup_abs (fs w') base = Some Dir
    ∧ log w' = log w ++ [Opened url; Opened url; Retrieved url (base ++ [n])]
    ∧ urlparse_path w' = urlparse_path w ∧ remote w' = remote w ∧ cwd w' = cwd w.
Proof.
  intros Hr n base Hplain Havail Hnotdir Hstale.
  set (w1 := with_event w (Opened url)).
  set (t := target_path directory n).
  assert (Ht : resolve_comps w t = base ++ [n]) by by apply resolve_comps_target.
  assert (Hparts : ¬ (1 < length (parts (Path_of n)))%nat).
  { destruct Hplain as [Hp _]. rewrite Hp. unfold parts. cbn [root comps].
    destruct (decide ("" = "")) as [_ | Hne]; [simpl; lia | done]. }
  assert (Hopen : (filename0 ← match filename with
                               | Some f => mret f
                               | None => default_filename_ url r
                               end; mret (r, filename0)) w1
                  = (Return (r, n), w1)).
  { unfold mbind, M_bind. destruct filename; reflexivity. }
  assert (Hstep : ∃ f',
    match directory with
    | Some d => _ ← mkdir (Path_of d); mret (joinpath (Path_of d) (Path_of n))
    | None => mret (Path_of n)
    end w1 = (Return t, with_fs w1 f')
    ∧ lookup_abs f' base = Some Dir ∧ grown base (fs w) f'
    ∧ (lookup_abs (fs w) base = Some Dir → f' = fs w)).
  { destruct directory as [d|].
    - destruct (mkdir_rev_makes (rev base) (fs w)) as (f' & Hrun & Hd & Hg).
      { rewrite rev_involutive. exact Havail. }
      rewrite rev_involutive in Hd, Hg. exists f'. split; [| repeat split; try done].
      + unfold mbind, M_bind, mkdir.
        change (fs w1) with (fs w).
        change (resolve_comps w1 (Path_of d)) with base.
        by rewrite Hrun.
      + intros Hthere. rewrite mkdir_rev_existing in Hrun
          by (by rewrite rev_involutive).
        by injection Hrun as <-.
    - exists (fs w). split; [reflexivity |].
      split; [exact Havail |]. split; [intros q; by left | done]. }
  destruct Hstep as (f' & Hstep & Hbase & Hgrown & Hsame).
  set (w2 := with_fs w1 f') in *.
  assert (Hself : f' (base ++ [n]) = fs w (base ++ [n])).
  { destruct (Hgrown (base ++ [n])) as [-> | (_ & _ & Hpre)]; [done |].
    by apply snoc_not_prefix in Hpre. }
  assert (Hlook : lookup w2 t = fs w (base ++ [n])).
  { unfold lookup. change (resolve_comps w2 t) with (resolve_comps w t).
    rewrite Ht, lookup_abs_snoc. exact Hself. }
  assert (Hretr := urlretrieve_run w2 url t r Hr).
  change (resolve_comps w2 t) with (resolve_comps w t) in Hretr.
  rewrite Ht, lookup_abs_snoc, removelast_last in Hretr.
  specialize (Hretr ltac:(cbn [fs w2 with_fs]; by rewrite Hself) Hbase).
  match type of Hretr with _ = (_, ?w) => set (w3 := w) in * end.
  assert (Hlook3 : lookup w3 t = Some (File (received r))).
  { unfold lookup. change (resolve_comps w3 t) with (resolve_comps w t).
    rewrite Ht, lookup_abs_snoc. cbn [fs w3 with_event with_fs].
    unfold update. by rewrite decide_True. }
  exists f', w3. split; [| repeat split; try done].
  - unfold download_file, try_except_HTTPError.
    unfold mbind at 1. unfold M_bind at 1.
    unfold mbind at 1. unfold M_bind at 1.
    unfold urlopen at 1. rewrite Hr. fold w1. rewrite Hopen.
    rewrite decide_False by exact Hparts.
    unfold mbind at 1. unfold M_bind at 1.
    rewrite Hstep.
    unfold mbind, M_bind, exists_, st_size, resolve_.
    rewrite Hlook.
    destruct (fs w (base ++ [n])) as [[c|]|] eqn:Hfile; [| done |].
    + rewrite bool_decide_true by eauto. rewrite Hlook. cbn [mret M_ret].
      rewrite bool_decide_true by (by apply Hstale).
      rewrite Hretr.
      destruct (content_length r) as [size|]; [destruct (decide _) |];
        try reflexivity; by rewrite Hlook3.
    + rewrite bool_decide_false by (intros [x Hx]; discriminate Hx).
      cbn [mret M_ret]. rewrite Hretr.
      destruct (content_length r) as [size|]; [destruct (decide _) |];
        try reflexivity; by rewrite Hlook3.
  - cbn [fs w3 with_event with_fs]. rewrite lookup_abs_update_other; [done |].
    intros Heq. apply (snoc_not_prefix base n). by rewrite <- Heq.
  - cbn [log w3 w2 w1 with_event with_fs]. by rewrite <- !app_assoc.
Qed.

Lemma retrievals_fetch (l : list event) (url : string) (t : list string) :
  retrievals (l ++ [Opened url; Opened url; Retrieved url t])
  = retrievals l ++ [Retrieved url t].
Proof. unfold retrievals. by rewrite filter_app. Qed.

Lemma retrievals_app (l1 l2 : list event) :
  retrievals (l1 ++ l2) = retrievals l1 ++ retrievals l2.
Proof. unfold retrievals. apply filter_app. Qed.

(** When the server announces one file name and one size for both URLs,
    the weights are never fetched: the second [download_file] finds the
    descriptor under that name, with the announced size, and skips the
    transfer.  The folder then holds one file, with the descriptor's
    content. *)
Lemma download_ir_model_claim_fails :
  ¬ (∀ (w : World) (stem ext : string) (destination_folder : option string)
       (r_xml r_bin : Response),
       String.length ext = 4%nat →
       remote w (stem +:+ ext) = Responds r_xml →
       remote w (stem +:+ ".bin") = Responds r_bin →
       let n_xml := default_filename w (stem +:+ ext) r_xml in
       let n_bin := default_filename w (stem +:+ ".bin") r_bin in
       let base := resolve_comps w (dir_path destination_folder) in
       plain_name n_xml →
       plain_name n_bin →
       no_dotdot destination_folder →
       dir_available (fs w) destination_folder base →
       fs w (base ++ [n_xml]) = None →
       fs w (base ++ [n_bin]) = None →
       content_length r_xml = Some (Z.of_nat (length (body r_xml))) →
       content_length r_bin = Some (Z.of_nat (length (body r_bin))) →
       ∃ w', download_ir_model (stem +:+ ext) destination_folder w
             = (Return (resolve w (target_path destination_folder n_xml)), w')
         ∧ Retrieved (stem +:+ ".bin") (base ++ [n_bin]) ∈ log w'
         ∧ fs w' (base ++ [n_bin]) = Some (File (body r_bin))).
Proof.
  intros Hclaim.
  destruct (Hclaim
              (mk_World (λ _, "/get")
                 (λ u, if decide (u = "http://host/get.xml")
                       then Responds (mk_Response (Some "model") (Some 1%Z) [x01]%byte)
                       else Responds (mk_Response (Some "model") (Some 1%Z) [x02]%byte))
                 ["home"]
                 (λ p, if decide (p = ["home"]) then Some Dir else None)
                 [])
              "http://host/get" ".xml" None
              (mk_Response (Some "model") (Some 1%Z) [x01]%byte)
              (mk_Response (Some "model") (Some 1%Z) [x02]%byte))
    as (w' & Hrun & Hlog & Hfile); try reflexivity.
  - split; [reflexivity | discriminate].
  - split; [reflexivity | discriminate].
  - intros d Hd. discriminate Hd.
  - vm_compute in Hrun. injection Hrun as <-.
    cbn [fs] in Hfile. vm_compute in Hfile. discriminate Hfile.
Qed.

(** C8 (amended).  For a descriptor URL ending in a four-character
    extension such as [".xml"], [download_ir_model] fetches that URL and
    the URL with the extension replaced by [".bin"], in this order.  When
    both open with bodies not shorter than announced and with plain file
    names that differ, the destination folder (named without [".."]) can
    be made, and neither file is already there with the size compared
    with, both are retrieved: each file of the destination folder then
    holds what was read of its body, the log has gained the two
    retrievals, descriptor first, and the resolved path of the descriptor
    file is returned. *)
Theorem download_ir_model_saves_both (w : World) (stem ext : string)
    (destination_folder : option string) (r_xml r_bin : Response) :
  String.length ext = 4%nat →
  let model_xml_url := stem +:+ ext in
  let model_bin_url := stem +:+ ".bin" in
  remote w model_xml_url = Responds r_xml →
  remote w model_bin_url = Responds r_bin →
  let n_xml := default_filename w model_xml_url r_xml in
  let n_bin := default_filename w model_bin_url r_bin in
  let base := resolve_comps w (dir_path destination_folder) in
  plain_name n_xml →
  plain_name n_bin →
  n_xml ≠ n_bin →
  no_dotdot destination_folder →
  dir_available (fs w) destination_folder base →
  stale (fs w) (base ++ [n_xml]) r_xml →
  stale (fs w) (base ++ [n_bin]) r_bin →
  complete r_xml →
  complete r_bin →
  ∃ w', download_ir_model model_xml_url destination_folder w
        = (Return (resolve w (target_path destination_folder n_xml)), w')
    ∧ fs w' (base ++ [n_xml]) = Some (File (received r_xml))
    ∧ fs w' (base ++ [n_bin]) = Some (File (received r_bin))
    ∧ lookup_abs (fs w') base = Some Dir
    ∧ retrievals (log w')
      = retrievals (log w) ++ [Retrieved model_xml_url (base ++ [n_xml]);
                               Retrieved model_bin_url (base ++ [n_bin])]
    ∧ (∃ l1 l2, log w' = log w ++ Opened model_xml_url :: l1
                          ++ Opened model_bin_url :: l2).
Proof.
  intros Hext xml_url bin_url Hr1 Hr2 n_xml n_bin base Hp1 Hp2 Hdiff _ Havail
    [Hnd1 Hst1] [Hnd2 Hst2] Hc1 Hc2.
  assert (Hfull : ∀ (r : Response) (p : Path), complete r →
            match content_length r with
            | Some size =>
                if decide (0 ≤ size ∧ Z.of_nat (length (received r)) < size)%Z
                then Raise ContentTooShortError else Return p
            | None => Return p
            end = Return p).
  { intros r p Hc. destruct (content_length r) as [size|] eqn:Hsize; [| done].
    rewrite decide_False; [done |]. intros [Hpos Hlt].
    apply (received_short r size Hsize Hpos) in Hlt.
    specialize (Hc size Hsize). lia. }
  assert (Htargets : base ++ [n_bin] ≠ base ++ [n_xml]).
  { intros Heq. apply app_inv_head in Heq. injection Heq as Heq. by apply Hdiff. }
  (* the descriptor *)
  destruct (download_file_retrieves w xml_url None destination_folder false false r_xml
              Hr1 Hp1 Havail Hnd1 Hst1)
    as (f1 & w1 & Hrun1 & Hgrown1 & _ & Hfs1 & Hbase1 & Hlog1 & Hu1 & Hrem1 & Hcwd1).
  cbn [default] in Hrun1, Hfs1. fold n_xml base in Hrun1, Hfs1, Hbase1, Hlog1, Hgrown1.
  rewrite (Hfull r_xml _ Hc1) in Hrun1.
  assert (Hn : default_filename w1 bin_url r_bin = n_bin).
  { unfold n_bin, default_filename. by rewrite Hu1. }
  assert (Hb : resolve_comps w1 (dir_path destination_folder) = base).
  { unfold base, resolve_comps. by rewrite Hcwd1. }
  assert (Hother : fs w1 (base ++ [n_bin]) = fs w (base ++ [n_bin])).
  { rewrite Hfs1. unfold update. rewrite decide_False by exact Htargets.
    destruct (Hgrown1 (base ++ [n_bin])) as [Heq | (_ & _ & Hpre)]; [done |].
    by apply snoc_not_prefix in Hpre. }
  (* the weights *)
  destruct (download_file_retrieves w1 bin_url None destination_folder true false r_bin)
    as (f2 & w2 & Hrun2 & _ & Hsame2 & Hfs2 & Hbase2 & Hlog2 & _).
  - by rewrite Hrem1.
  - cbn [default]. by rewrite Hn.
  - rewrite Hb. unfold dir_available in *.
    destruct destination_folder as [d|]; [| exact Hbase1].
    intros q c Hpre Hq. destruct q as [|x q]; [discriminate Hq |].
    cbn [lookup_abs] in Hq. rewrite Hfs1 in Hq. unfold update in Hq.
    destruct (decide (x :: q = base ++ [n_xml])) as [Heq | _].
    + rewrite Heq in Hpre. by apply snoc_not_prefix in Hpre.
    + destruct (Hgrown1 (x :: q)) as [Heq | (_ & Hdir & _)].
      * apply (Havail (x :: q) c Hpre). cbn [lookup_abs]. by rewrite <- Heq.
      * rewrite Hdir in Hq. discriminate Hq.
  - cbn [default]. rewrite Hn, Hb, Hother. exact Hnd2.
  - cbn [default]. rewrite Hn, Hb, Hother. exact Hst2.
  - cbn [default] in Hrun2, Hfs2, Hlog2.
    rewrite Hn in Hrun2, Hfs2, Hlog2. rewrite Hb in Hfs2, Hbase2, Hlog2, Hsame2.
    rewrite (Hfull r_bin _ Hc2) in Hrun2.
    rewrite (Hsame2 Hbase1) in Hfs2.
    exists w2. split; [| split; [| split; [| split; [| split]]]].
    + unfold download_ir_model.
      change (drop_last4 xml_url) with (drop_last4 (stem +:+ ext)).
      rewrite (drop_last4_extension stem ext Hext).
      unfold mbind, M_bind. fold bin_url.
      by rewrite Hrun1, Hrun2.
    + rewrite Hfs2. unfold update.
      rewrite decide_False by (intros Heq; by apply Htargets).
      rewrite Hfs1. unfold update. by rewrite decide_True.
    + rewrite Hfs2. unfold update. by rewrite decide_True.
    + exact Hbase2.
    + rewrite Hlog2, Hlog1, !retrievals_fetch, <- app_assoc. reflexivity.
    + exists [Opened xml_url; Retrieved xml_url (base ++ [n_xml])],
             [Opened bin_url; Retrieved bin_url (base ++ [n_bin])].
      rewrite Hlog2, Hlog1, <- !app_assoc. reflexivity.
Qed.

Lemma download_ir_model_saves_both_witness :
  ∃ w', download_ir_model "http://host/m.xml" (Some "model")
          (mk_World
             (λ u, if decide (u = "http://host/m.xml") then "/m.xml" else "/m.bin")
             (λ u, if decide (u = "http://host/m.xml")
                   then Responds (mk_Response None (Some 3%Z) [x3c; x61; x3e]%byte)
                   else if decide (u = "http://host/m.bin")
                        then Responds (mk_Response None None [x05]%byte)
                   else FailsHTTP 404 "Not Found")
             ["home"]
             (λ p, if decide (p = ["home"]) then Some Dir else None)
             [])
        = (Return (mk_Path "/" ["home"; "model"; "m.xml"]), w')
    ∧ fs w' ["home"; "model"; "m.xml"] = Some (File [x3c; x61; x3e]%byte)
    ∧ fs w' ["home"; "model"; "m.bin"] = Some (File [x05]%byte)
    ∧ retrievals (log w')
      = [Retrieved "http://host/m.xml" ["home"; "model"; "m.xml"];
         Retrieved "http://host/m.bin" ["home"; "model"; "m.bin"]].
Proof.
  destruct (download_ir_model_saves_both
              (mk_World
                 (λ u, if decide (u = "http://host/m.xml") then "/m.xml" else "/m.bin")
                 (λ u, if decide (u = "http://host/m.xml")
                       then Responds (mk_Response None (Some 3%Z) [x3c; x61; x3e]%byte)
                       else if decide (u = "http://host/m.bin")
                            then Responds (mk_Response None None [x05]%byte)
                       else FailsHTTP 404 "Not Found")
                 ["home"]
                 (λ p, if decide (p = ["home"]) then Some Dir else None)
                 [])
              "http://host/m" ".xml" (Some "model")
              (mk_Response None (Some 3%Z) [x3c; x61; x3e]%byte)
              (mk_Response None None [x05]%byte))
    as (w' & Hrun & Hf1 & Hf2 & _ & Hlog & _).
  - reflexivity.
  - reflexivity.
  - reflexivity.
  - split; [reflexivity | discriminate].
  - split; [reflexivity | discriminate].
  - vm_compute. discriminate.
  - intros d [= <-] Hin. vm_compute in Hin.
    apply list_elem_of_singleton in Hin. discriminate Hin.
  - intros p c Hpre Hfile. destruct p as [|x p]; [discriminate Hfile |].
    cbn [lookup_abs fs] in Hfile.
    destruct (decide (x :: p = ["home"])); discriminate Hfile.
  - split; [vm_compute; discriminate |]. intros c Hc. vm_compute in Hc. discriminate Hc.
  - split; [vm_compute; discriminate |]. intros c Hc. vm_compute in Hc. discriminate Hc.
  - intros size [= <-]. vm_compute. discriminate.
  - intros size Hs. discriminate Hs.
  - exists w'. split; [exact Hrun |]. split; [exact Hf1 |]. split; [exact Hf2 | exact Hlog].
Defined.

End FilesFacts.

(** ** More on normalize_minmax and the colour conversions *)

Module ImagesMore.
Import Images ImagesFacts.
Import SpecFloat.
Local Open Scope Z_scope.

(** What a returning call has computed. *)
Lemma normalize_minmax_returns (dt : int_dtype) (a : ndarray Z)
    (r : ndarray spec_float) :
  normalize_minmax dt a = Return r →
  ∃ mx mn, is_max (data a) mx ∧ is_min (data a) mn ∧ mx ≠ mn
    ∧ shape r = shape a
    ∧ data r = map (λ x, f64_div (f64_of_Z (wrap dt (x - mn)))
                           (f64_of_Z (wrap dt (mx - mn)))) (data a).
Proof.
  unfold normalize_minmax, amax, amin. intros Hrun.
  destruct (data a) as [|x xs] eqn:E; [discriminate Hrun |].
  cbn [mbind outcome_bind obind] in Hrun.
  destruct (decide (foldl Z.max x xs = foldl Z.min x xs)) as [Heq | Hne];
    [discriminate Hrun |].
  injection Hrun as <-. rewrite map_map.
  exists (foldl Z.max x xs), (foldl Z.min x xs).
  repeat split; try done; try apply foldl_max_is_max; apply foldl_min_is_min.
Qed.

Lemma wrap_zero (dt : int_dtype) : wrap dt 0 = 0.
Proof.
  apply wrap_in_range. unfold in_range. destruct dt; cbn; lia.
Qed.

(** The difference of two distinct values of the type's range is not a
    multiple of [2 ^ bits], so it does not wrap to 0. *)
Lemma wrap_span_nonzero (dt : int_dtype) (mx mn : Z) :
  in_range dt mx → in_range dt mn → mx ≠ mn → wrap dt (mx - mn) ≠ 0.
Proof.
  unfold in_range, wrap. intros Hmx Hmn Hne Hz. pose proof (range_width dt) as Hw.
  assert (Hpos : 0 < 2 ^ bits dt)
    by (apply Z.pow_pos_nonneg; pose proof (bits_pos dt); lia).
  set (M := 2 ^ bits dt) in *.
  pose proof (Z.div_mod (mx - mn - min_value dt) M ltac:(lia)) as Hdm.
  pose proof (Z.mod_pos_bound (mx - mn - min_value dt) M Hpos) as Hb.
  assert (Hq : (mx - mn - min_value dt) `div` M = 0 ∨ (mx - mn - min_value dt) `div` M ≠ 0)
    by lia.
  nia.
Qed.

(** X1.  The values of the result lie between 0 and 1, as the docstring
    says, for every array of an integer type whose span fits the type and
    is below [2 ^ 53]: whenever [normalize_minmax] returns on such an array,
    the result has the shape and the number of elements of the input, and
    every element [y] of it satisfies [0.0 <= y] and [y <= 1.0] in
    float64. *)
Theorem normalize_minmax_range (dt : int_dtype) (a : ndarray Z)
    (r : ndarray spec_float) :
  (∀ x y, x ∈ data a → y ∈ data a → x - y ≤ max_value dt ∧ x - y < 2 ^ 53) →
  normalize_minmax dt a = Return r →
  shape r = shape a
  ∧ length (data r) = length (data a)
  ∧ Forall (λ y, f64_leb f64_zero y = true ∧ f64_leb y f64_one = true) (data r).
Proof.
  intros Hspan Hrun.
  destruct (normalize_minmax_returns dt a r Hrun)
    as (mx & mn & [Hmxin Hmx] & [Hmnin Hmn] & Hne & Hsh & Hd).
  destruct (Hspan mx mn Hmxin Hmnin) as [Hfit Hexact].
  assert (Hpos : 0 < mx - mn) by (specialize (Hmn mx Hmxin); lia).
  pose proof (min_value_nonpos dt) as Hmin.
  split; [done |]. split; [by rewrite Hd, length_map |].
  rewrite Hd. apply Forall_forall. intros y Hy.
  apply list_elem_of_fmap in Hy as (x & -> & Hx).
  specialize (Hmx x Hx). specialize (Hmn x Hx).
  rewrite !wrap_in_range by (unfold in_range; lia).
  destruct (Z.eq_dec x mn) as [-> | Hxmn].
  - rewrite Z.sub_diag, (proj1 (f64_div_extremes (mx - mn) ltac:(lia))). done.
  - destruct (Z.eq_dec x mx) as [-> | Hxmx].
    + rewrite (proj2 (f64_div_extremes (mx - mn) ltac:(lia))). done.
    + destruct (f64_div_le_one (x - mn) (mx - mn) ltac:(lia) ltac:(lia))
        as (m & e & -> & Hcase).
      by apply f64_leb_unit.
Qed.

Lemma normalize_minmax_range_witness :
  ∃ r, normalize_minmax uint8 (mk_ndarray [2; 2]%nat [10; 250; 130; 11]) = Return r
    ∧ shape r = [2; 2]%nat
    ∧ Forall (λ y, f64_leb f64_zero y = true ∧ f64_leb y f64_one = true) (data r).
Proof.
  assert (Hrun : ∃ r, normalize_minmax uint8 (mk_ndarray [2; 2]%nat [10; 250; 130; 11])
                      = Return r) by (eexists; vm_compute; reflexivity).
  destruct Hrun as [r Hr]. exists r.
  destruct (normalize_minmax_range uint8 (mk_ndarray [2; 2]%nat [10; 250; 130; 11]) r)
    as (Hs & _ & Hall); [| exact Hr |].
  - cbn [data]. intros x y Hx Hy.
    repeat (apply elem_of_cons in Hx as [-> | Hx]);
      repeat (apply elem_of_cons in Hy as [-> | Hy]);
      try (by apply elem_of_nil in Hx); try (by apply elem_of_nil in Hy);
      vm_compute; (split; [discriminate | reflexivity]).
  - split; [exact Hr |]. split; [exact Hs | exact Hall].
Defined.

(** X27.  Whatever the integer type and whether or not the subtractions
    wrap around: when [normalize_minmax] returns, every occurrence of the
    maximum of the input has become 1.0 and every occurrence of the minimum
    a zero (0.0, or -0.0 when the span wrapped to a negative number),
    provided the span as computed in the type is below [2 ^ 53] in size, as
    it is for every type of at most 32 bits. *)
Theorem extremes_map_to_0_and_1 (dt : int_dtype) (a : ndarray Z)
    (r : ndarray spec_float) :
  Forall (in_range dt) (data a) →
  normalize_minmax dt a = Return r →
  ∃ mx mn, is_max (data a) mx ∧ is_min (data a) mn
    ∧ (Z.abs (wrap dt (mx - mn)) < 2 ^ 53 →
       (∀ i, data a !! i = Some mx → data r !! i = Some f64_one)
       ∧ (∀ i, data a !! i = Some mn →
            ∃ s, data r !! i = Some (S754_zero s)
              ∧ (s = true ↔ wrap dt (mx - mn) < 0))).
Proof.
  intros Hrange Hrun.
  destruct (normalize_minmax_returns dt a r Hrun)
    as (mx & mn & Hmx & Hmn & Hne & Hsh & Hd).
  exists mx, mn. split; [exact Hmx |]. split; [exact Hmn |]. intros Hsmall.
  rewrite Forall_forall in Hrange.
  assert (Hnz : wrap dt (mx - mn) ≠ 0).
  { apply wrap_span_nonzero; [apply Hrange, Hmx | apply Hrange, Hmn | done]. }
  assert (Hfin : ∃ m e, f64_of_Z (wrap dt (mx - mn))
                        = S754_finite (bool_decide (wrap dt (mx - mn) < 0)) m e).
  { destruct (wrap dt (mx - mn)) as [|p|p] eqn:Hw; [done | |].
    - destruct (f64_of_Z_pos p ltac:(lia)) as (m & e & ->). by exists m, e.
    - destruct (f64_of_Z_neg p ltac:(lia)) as (m & e & ->). by exists m, e. }
  destruct Hfin as (m & e & Hfin). split.
  - intros i Hi. rewrite Hd, list_lookup_fmap, Hi. cbn [fmap option_fmap option_map].
    rewrite Hfin. f_equal. apply f64_div_self.
  - intros i Hi. exists (bool_decide (wrap dt (mx - mn) < 0)). split.
    + rewrite Hd, list_lookup_fmap, Hi. cbn [fmap option_fmap option_map].
      rewrite Z.sub_diag, wrap_zero, Hfin. reflexivity.
    + rewrite bool_decide_eq_true. reflexivity.
Qed.

Lemma extremes_map_to_0_and_1_witness :
  ∃ mx mn r, normalize_minmax int8 (mk_ndarray [3%nat] [-128; 0; 127]) = Return r
    ∧ is_max [-128; 0; 127] mx ∧ is_min [-128; 0; 127] mn
    ∧ (∀ i, [-128; 0; 127] !! i = Some mx → data r !! i = Some f64_one).
Proof.
  destruct (extremes_map_to_0_and_1 int8 (mk_ndarray [3%nat] [-128; 0; 127])
              _ ltac:(cbn [data]; repeat constructor; vm_compute; intros H; discriminate H)
              (proj1 normalize_minmax_int8_wraps))
    as (mx & mn & Hmx & Hmn & Hext).
  exists mx, mn. eexists. split; [exact (proj1 normalize_minmax_int8_wraps) |].
  split; [exact Hmx |]. split; [exact Hmn |].
  apply Hext.
  assert (Emx : mx = 127).
  { eapply is_max_unique; [exact Hmx |]. split; [cbn; repeat constructor |].
    intros x Hx; cbn [data] in Hx.
    repeat (apply elem_of_cons in Hx as [-> | Hx]); try lia.
    by apply elem_of_nil in Hx. }
  assert (Emn : mn = -128).
  { eapply is_min_unique; [exact Hmn |]. split; [cbn; repeat constructor |].
    intros x Hx; cbn [data] in Hx.
    repeat (apply elem_of_cons in Hx as [-> | Hx]); try lia.
    by apply elem_of_nil in Hx. }
  subst. vm_compute. reflexivity.
Defined.

(** The three channels of pixel number [p] after the exchange. *)
Lemma swap_rb3_lookup {A} (p : nat) :
  ∀ (n : nat) (d : list A), length d = (3 * n)%nat → (p < n)%nat →
    swap_rb3 d !! (3 * p)%nat = d !! (3 * p + 2)%nat
    ∧ swap_rb3 d !! (3 * p + 1)%nat = d !! (3 * p + 1)%nat
    ∧ swap_rb3 d !! (3 * p + 2)%nat = d !! (3 * p)%nat.
Proof.
  induction p as [|p IH]; intros n d Hlen Hp.
  - destruct d as [|c0 [|c1 [|c2 rest]]]; cbn in Hlen; try lia. by cbn.
  - destruct d as [|c0 [|c1 [|c2 rest]]]; cbn in Hlen; try lia.
    destruct (IH (n - 1)%nat rest ltac:(lia) ltac:(lia)) as (H0 & H1 & H2).
    assert (Hskip : ∀ (x y z : A) (l : list A) (k : nat),
              (x :: y :: z :: l) !! (3 + k)%nat = l !! k) by done.
    cbn [swap_rb3].
    replace (3 * S p)%nat with (3 + 3 * p)%nat by lia.
    replace (3 + 3 * p + 1)%nat with (3 + (3 * p + 1))%nat by lia.
    replace (3 + 3 * p + 2)%nat with (3 + (3 * p + 2))%nat by lia.
    by rewrite !Hskip, H0, H1, H2.
Qed.

(** X4.  On a three-channel image it accepts, [to_rgb] exchanges the first
    and the third channel of every pixel and keeps the second, as the
    notebook checks on one image; [to_bgr] returns the same array as
    [to_rgb]. *)
Theorem to_rgb_exchanges_channels {A} (dt : dtype) (image_data : ndarray A)
    (H W : nat) :
  cvt_depth dt = true →
  shape image_data = [H; W; 3%nat] →
  H ≠ 0%nat → W ≠ 0%nat →
  wf_ndarray image_data →
  ∃ rgb_data, to_rgb dt image_data = Return rgb_data
    ∧ to_bgr dt image_data = Return rgb_data
    ∧ shape rgb_data = [H; W; 3%nat]
    ∧ ∀ i j, (i < H)%nat → (j < W)%nat →
        let p := (i * W + j)%nat in
        data rgb_data !! (3 * p)%nat = data image_data !! (3 * p + 2)%nat
        ∧ data rgb_data !! (3 * p + 1)%nat = data image_data !! (3 * p + 1)%nat
        ∧ data rgb_data !! (3 * p + 2)%nat = data image_data !! (3 * p)%nat.
Proof.
  intros Hdepth Hshape HH HW Hwf.
  assert (Hlen : length (data image_data) = (3 * (H * W))%nat).
  { unfold wf_ndarray in Hwf. rewrite Hwf, Hshape. cbn. lia. }
  exists (mk_ndarray [H; W; 3%nat] (swap_rb3 (data image_data))).
  split; [by apply cvtColor_3 |]. split; [by apply cvtColor_3 |]. split; [done |].
  intros i j Hi Hj p. cbn [data].
  apply (swap_rb3_lookup p (H * W)); [exact Hlen | unfold p; nia].
Qed.

Lemma to_rgb_exchanges_channels_witness :
  ∃ rgb_data,
    to_rgb (Int uint8) (mk_ndarray [1; 2; 3]%nat [0; 1; 2; 3; 4; 5]) = Return rgb_data
    ∧ data rgb_data !! 3%nat = Some 5.
Proof.
  destruct (to_rgb_exchanges_channels (Int uint8)
              (mk_ndarray [1; 2; 3]%nat [0; 1; 2; 3; 4; 5]) 1%nat 2%nat)
    as (rgb_data & Hrun & _ & _ & Hpix); try reflexivity; try lia.
  exists rgb_data. split; [exact Hrun |].
  destruct (Hpix 0%nat 1%nat ltac:(lia) ltac:(lia)) as (H0 & _ & _).
  exact H0.
Defined.

End ImagesMore.

(** ** More on labels and on segmentation_map_to_image *)

Module SegmentationMore.
Import Segmentation SegmentationFacts.
Local Open Scope Z_scope.

Lemma existsb_truthy_false (names : list (option string)) :
  existsb truthy names = false ↔ ∀ n, n ∈ names → truthy n = false.
Proof.
  induction names as [|n names IH]; cbn [existsb].
  - split; [| done]. intros _ n Hn. by apply elem_of_nil in Hn.
  - rewrite orb_false_iff, IH. split.
    + intros [Hn Hrest] m Hm. apply elem_of_cons in Hm as [-> | Hm]; auto.
    + intros Hall. split; [apply Hall; left |]. intros m Hm. apply Hall. by right.
Qed.

(** X5.  [get_labels] returns None exactly when no label has a name other
    than None or the empty string; otherwise it returns the names of all
    labels, unnamed ones included, in list order. *)
Theorem get_labels_spec (sm : SegmentationMap) :
  (get_labels sm = None ↔
     ∀ lbl, lbl ∈ labels sm → name lbl = None ∨ name lbl = Some EmptyString)
  ∧ (∀ names, get_labels sm = Some names → names = map name (labels sm)).
Proof.
  unfold get_labels. split.
  - destruct (existsb truthy (map name (labels sm))) eqn:E.
    + split; [done |]. intros Hall. exfalso.
      assert (Hf : existsb truthy (map name (labels sm)) = false); [| congruence].
      apply existsb_truthy_false. intros n Hn.
      apply list_elem_of_fmap in Hn as (lbl & -> & Hlbl).
      by destruct (Hall lbl Hlbl) as [-> | ->].
    + split; [| done]. intros _ lbl Hlbl.
      assert (Ht : truthy (name lbl) = false).
      { apply (proj1 (existsb_truthy_false _) E).
        by apply (list_elem_of_fmap_2 name). }
      destruct (name lbl) as [s|]; [| by left]. right. f_equal.
      cbn in Ht. apply negb_false_iff, String.eqb_eq in Ht. exact Ht.
  - intros names. destruct (existsb truthy _); congruence.
Qed.

Lemma bad_shape_raises_ValueError_witness :
  segmentation_map_to_image (mk_ndarray [2; 2; 2]%nat (replicate 8 0))
    [(0, 0, 0)] false = Raise ValueError.
Proof.
  apply (bad_shape_raises_ValueError _ _ _ 2%nat [2; 2]%nat); [reflexivity | | ];
    cbn; lia.
Defined.

Lemma too_many_values_raises_ValueError_witness :
  segmentation_map_to_image (mk_ndarray [1; 3]%nat [0; 1; 2])
    [(0, 0, 0); (9, 9, 9)] false = Raise ValueError.
Proof.
  apply too_many_values_raises_ValueError; [discriminate | vm_compute; lia].
Defined.

Lemma single_row_IndexError_witness :
  segmentation_map_to_image (mk_ndarray [1; 2]%nat [0; 1])
    [(0, 0, 0); (9, 9, 9)] false = Raise IndexError.
Proof.
  apply (single_row_IndexError _ _ _ 2%nat); [reflexivity | vm_compute; lia].
Defined.

(** X9.  A leading dimension of 1 makes no difference: a result of shape
    (1, H, W) has the outcome, value or exception, of the result of shape
    (H, W) with the same elements, as long as H is not 1. *)
Theorem leading_one_same_outcome (d : list Z) (H W : nat) (colormap : colormap_t)
    (remove_holes : bool) :
  H ≠ 1%nat →
  segmentation_map_to_image (mk_ndarray [1%nat; H; W] d) colormap remove_holes
  = segmentation_map_to_image (mk_ndarray [H; W] d) colormap remove_holes.
Proof.
  intros HH. unfold segmentation_map_to_image, ndim, shape_at, n_unique.
  cbn [shape data length lookup list_lookup mbind outcome_bind obind].
  destruct (decide (length colormap < length (remove_dups d))%nat) as [Hgt | Hle].
  - cbn. by destruct (getitem colormap 0).
  - destruct (decide (H = 1%nat)) as [Heq | _]; [done | reflexivity].
Qed.

Lemma leading_one_same_outcome_witness :
  segmentation_map_to_image (mk_ndarray [1; 2; 2]%nat [0; 1; 1; 0])
    [(10, 20, 30); (40, 50, 60)] false
  = segmentation_map_to_image (mk_ndarray [2; 2]%nat [0; 1; 1; 0])
    [(10, 20, 30); (40, 50, 60)] false.
Proof. apply leading_one_same_outcome. lia. Defined.

Lemma mod3 (p c : nat) : (c < 3)%nat → ((3 * p + c) mod 3)%nat = c.
Proof. intros Hc. symmetry. apply (Nat.mod_unique _ _ p); lia. Qed.

Lemma paint_paints (mask : ndarray Z) (cs : Contours) (c : rgb) (q : nat) :
  (q < length (data mask))%nat →
  cs !! (q / 3)%nat = Some true →
  data (paint mask cs c) !! q = Some (saturate_u8 (channel c (q mod 3)%nat)).
Proof.
  intros Hq Hin. unfold paint. cbn [data].
  rewrite list_lookup_imap.
  destruct (lookup_lt_is_Some_2 _ _ Hq) as [v ->].
  unfold fmap, option_fmap, option_map. by rewrite Hin.
Qed.

(** With [RETR_TREE] the loop gives every pixel whose value is one of the
    label indices it runs through the colour of that label. *)
Lemma draw_labels_paints (r : ndarray Z) (H W : nat) (colors : list rgb) :
  shape r = [H; W] →
  ∀ (k : nat) (mask : ndarray Z) (p q : nat) (v : Z) (c : rgb),
    size_of (shape mask) ≠ 0%nat →
    data r !! p = Some v →
    Z.of_nat k ≤ v →
    colors !! (Z.to_nat v - k)%nat = Some c →
    (q / 3)%nat = p →
    (q < length (data mask))%nat →
    ∃ mask', draw_labels RETR_TREE r k colors mask = Return mask'
      ∧ data mask' !! q = Some (saturate_u8 (channel c (q mod 3)%nat)).
Proof.
  intros Hsh. induction colors as [|c0 rest IH];
    intros k mask p q v c Hnonempty Hp Hk Hc Hq Hlen.
  - by rewrite lookup_nil in Hc.
  - cbn [draw_labels]. rewrite (findContours_2d _ _ _ _ _ Hsh).
    cbn [mbind outcome_bind obind].
    rewrite drawContours_nonempty by exact Hnonempty.
    match goal with
    | |- context [paint mask ?cs c0] => set (region := cs)
    end.
    assert (Hlen1 : (q < length (data (paint mask region c0)))%nat).
    { unfold paint. cbn [data]. by rewrite length_imap. }
    destruct (decide (v = Z.of_nat k)) as [Heq | Hne].
    + destruct (draw_labels_spec RETR_TREE r H W rest Hsh (S k)
                  (paint mask region c0) Hnonempty)
        as (mask' & Hrun & _ & _ & _ & Hkeep).
      exists mask'. split; [exact Hrun |].
      rewrite (Hkeep eq_refl p q v Hp) by (done || lia).
      replace (Z.to_nat v - k)%nat with 0%nat in Hc by lia.
      injection Hc as <-.
      apply paint_paints; [exact Hlen |].
      rewrite Hq. subst region. cbn beta iota.
      rewrite (tree_region_lookup _ _ _ _ Hp). f_equal. by apply bool_decide_true.
    + apply (IH (S k) (paint mask region c0) p q v c Hnonempty Hp);
        [lia | | done | done].
      replace (Z.to_nat v - k)%nat with (S (Z.to_nat v - S k)) in Hc by lia.
      exact Hc.
Qed.

(** X10.  For an accepted result with pixels (shape (H, W) with H other
    than 1, or (1, H, W), H and W not 0; no more distinct values than
    colormap rows) and [remove_holes=False], every pixel whose value,
    converted to an unsigned 8-bit integer, is the index of a colormap row
    has the colour of that row in the mask, each component converted as
    OpenCV converts it: clipped to 0..255 when it fits 32 bits. *)
Theorem accepted_input_colours (result : ndarray Z) (colormap : colormap_t)
    (H W : nat) :
  (shape result = [H; W] ∧ H ≠ 1%nat) ∨ shape result = [1%nat; H; W] →
  H ≠ 0%nat → W ≠ 0%nat →
  (n_unique result ≤ length colormap)%nat →
  ∃ mask, segmentation_map_to_image result colormap false = Return mask
    ∧ ∀ (i j : nat) (v : Z) (c : rgb), (i < H)%nat → (j < W)%nat →
        data result !! (i * W + j)%nat = Some v →
        colormap !! Z.to_nat (v mod 256) = Some c →
        pixel W mask i j
        = Some (saturate_u8 c.1.1, saturate_u8 c.1.2, saturate_u8 c.2).
Proof.
  intros Hshape HH HW Hle.
  rewrite (accepted_reaches_loop _ _ _ _ _ Hshape Hle).
  set (r := astype_uint8 (mk_ndarray [H; W] (data result))).
  assert (Hnonempty : size_of (shape (zeros3 H W)) ≠ 0%nat).
  { unfold zeros3. cbn [shape]. rewrite size_of_3. nia. }
  destruct (draw_labels_spec RETR_TREE r H W colormap eq_refl 0%nat (zeros3 H W)
              Hnonempty)
    as (mask & Hrun & _ & Hlen & _ & _).
  exists mask. split; [exact Hrun |].
  intros i j v c Hi Hj Hv Hc.
  assert (Hr : data r !! (i * W + j)%nat = Some (v mod 256)).
  { unfold r, astype_uint8. cbn [data]. by rewrite list_lookup_fmap, Hv. }
  assert (Hin : (i * W + j < H * W)%nat) by nia.
  assert (Hch : ∀ ch, (ch < 3)%nat →
            data mask !! (3 * (i * W + j) + ch)%nat
            = Some (saturate_u8 (channel c ch))).
  { intros ch Hlt.
    destruct (draw_labels_paints r H W colormap eq_refl 0%nat (zeros3 H W)
                (i * W + j)%nat (3 * (i * W + j) + ch)%nat (v mod 256) c Hnonempty)
      as (mask2 & Hrun2 & Hpix); try done.
    - pose proof (Z.mod_pos_bound v 256). lia.
    - by rewrite Nat.sub_0_r.
    - by apply div3.
    - unfold zeros3. cbn [data]. rewrite length_replicate. lia.
    - rewrite Hrun in Hrun2. injection Hrun2 as <-.
      by rewrite Hpix, mod3. }
  unfold pixel.
  pose proof (Hch 0%nat ltac:(lia)) as H0.
  pose proof (Hch 1%nat ltac:(lia)) as H1.
  pose proof (Hch 2%nat ltac:(lia)) as H2.
  replace (3 * (i * W + j) + 0)%nat with (3 * (i * W + j))%nat in H0 by lia.
  replace (3 * (i * W + j) + 1)%nat with (S (3 * (i * W + j)))%nat in H1 by lia.
  replace (3 * (i * W + j) + 2)%nat with (S (S (3 * (i * W + j))))%nat in H2 by lia.
  by rewrite H0, H1, H2.
Qed.

Lemma accepted_input_colours_witness :
  ∃ mask,
    segmentation_map_to_image (mk_ndarray [1; 2; 2]%nat [0; 1; 257; 0])
      [(10, 20, 30); (40, 300, -6); (1, 2, 3)] false = Return mask
    ∧ pixel 2 mask 1 0 = Some (40, 255, 0).
Proof.
  destruct (accepted_input_colours (mk_ndarray [1; 2; 2]%nat [0; 1; 257; 0])
              [(10, 20, 30); (40, 300, -6); (1, 2, 3)] 2%nat 2%nat)
    as (mask & Hrun & Hpix).
  - by right.
  - lia.
  - lia.
  - vm_compute. lia.
  - exists mask. split; [exact Hrun |].
    apply (Hpix 1%nat 0%nat 257 (40, 300, -6)); [lia | lia | reflexivity | reflexivity].
Defined.

(** Values that are all valid indices cannot be more numerous than the
    rows. *)
Lemma valid_indices_few (d : list Z) (n : nat) :
  Forall (λ v, 0 ≤ v < Z.of_nat n) d → (length (remove_dups d) ≤ n)%nat.
Proof.
  intros Hall.
  assert (Hsub : remove_dups d ⊆+ seqZ 0 (Z.of_nat n)).
  { apply NoDup_submseteq; [apply NoDup_remove_dups |].
    intros x Hx. apply (proj1 (elem_of_remove_dups _ _)) in Hx.
    apply elem_of_seqZ. rewrite Forall_forall in Hall. specialize (Hall x Hx). lia. }
  apply submseteq_length in Hsub. rewrite length_seqZ in Hsub. lia.
Qed.

(** X11.  A result all of whose values are indices of colormap rows, as
    the argmax over as many channels gives, always passes the count of
    distinct values: for the shapes (H, W) with H other than 1 and
    (1, H, W), H and W not 0, the call returns a mask of shape (H, W, 3),
    whatever [remove_holes] is. *)
Theorem valid_indices_accepted (result : ndarray Z) (colormap : colormap_t)
    (remove_holes : bool) (H W : nat) :
  (shape result = [H; W] ∧ H ≠ 1%nat) ∨ shape result = [1%nat; H; W] →
  H ≠ 0%nat → W ≠ 0%nat →
  Forall (λ v, 0 ≤ v < Z.of_nat (length colormap)) (data result) →
  ∃ mask, segmentation_map_to_image result colormap remove_holes = Return mask
    ∧ shape mask = [H; W; 3%nat].
Proof.
  intros Hshape HH HW Hall.
  assert (Hle : (n_unique result ≤ length colormap)%nat)
    by by apply valid_indices_few.
  rewrite (accepted_reaches_loop _ _ _ _ _ Hshape Hle).
  destruct (draw_labels_spec (if remove_holes then RETR_EXTERNAL else RETR_TREE)
              (astype_uint8 (mk_ndarray [H; W] (data result))) H W colormap
              eq_refl 0%nat (zeros3 H W))
    as (mask & Hrun & Hsh & _).
  { unfold zeros3. cbn [shape]. rewrite size_of_3. nia. }
  exists mask. split; [exact Hrun | by rewrite Hsh].
Qed.

Lemma valid_indices_accepted_witness :
  ∃ mask,
    segmentation_map_to_image (mk_ndarray [1; 2; 3]%nat [3; 3; 0; 1; 0; 3])
      [(68, 1, 84); (48, 103, 141); (53, 183, 120); (199, 216, 52)] true
    = Return mask
    ∧ shape mask = [2; 3; 3]%nat.
Proof.
  apply (valid_indices_accepted _ _ true 2%nat 3%nat); [by right | lia | lia |].
  cbn. repeat constructor; lia.
Defined.

(** *** Both contour modes *)

Lemma outside_iter_avoids (h w : nat) (fg : list bool) (n : nat) :
  ∀ out, (∀ p, fg !! p = Some true → out !! p = Some false) →
  ∀ p, fg !! p = Some true → outside_iter n h w fg out !! p = Some false.
Proof.
  induction n as [|n IH]; intros out Hout p Hp; cbn [outside_iter]; [by apply Hout |].
  apply IH; [| done]. intros p' Hp'. unfold outside_step.
  by rewrite list_lookup_imap, Hp'.
Qed.

(** The filled outer contours cover the non-zero pixels. *)
Lemma fill_external_covers (h w : nat) (fg : list bool) (p : nat) :
  fg !! p = Some true → fill_external h w fg !! p = Some true.
Proof.
  intros Hp. unfold fill_external.
  rewrite list_lookup_fmap, (outside_iter_avoids h w fg (length fg) _); [done | | done].
  intros p' Hp'. by rewrite list_lookup_fmap, Hp'.
Qed.

Lemma region_covers (mode : RetrievalModes) (r : ndarray Z) (H W k p : nat) :
  data r !! p = Some (Z.of_nat k) →
  (let fg := map (λ v, bool_decide (v ≠ 0)) (data (label_index_map r k)) in
   match mode with
   | RETR_TREE => fg
   | RETR_EXTERNAL => fill_external H W fg
   end) !! p = Some true.
Proof.
  intros Hp. cbn zeta.
  assert (Hfg : map (λ v, bool_decide (v ≠ 0)) (data (label_index_map r k)) !! p
                = Some true).
  { rewrite (tree_region_lookup _ _ _ _ Hp). f_equal. by apply bool_decide_true. }
  destruct mode; [by apply fill_external_covers | done].
Qed.

(** One filling either leaves the three channels of a pixel alone or sets
    them to the colour. *)
Lemma paint_pixel (mask : ndarray Z) (cs : Contours) (c : rgb) (p : nat) :
  (3 * p + 2 < length (data mask))%nat →
  (cs !! p = Some true ∧
     ∀ ch, (ch < 3)%nat →
       data (paint mask cs c) !! (3 * p + ch)%nat
       = Some (saturate_u8 (channel c ch)))
  ∨ (∀ ch, (ch < 3)%nat →
       data (paint mask cs c) !! (3 * p + ch)%nat
       = data mask !! (3 * p + ch)%nat).
Proof.
  intros Hlen. destruct (cs !! p) as [[|]|] eqn:Hcs.
  - left. split; [done |]. intros ch Hch.
    rewrite paint_paints; [by rewrite mod3 | lia | by rewrite div3].
  - right. intros ch Hch. apply paint_lookup. by rewrite div3, Hcs.
  - right. intros ch Hch. apply paint_lookup. by rewrite div3, Hcs.
Qed.

Lemma draw_labels_pixel (mode : RetrievalModes) (r : ndarray Z) (H W : nat)
    (colors : list rgb) :
  shape r = [H; W] →
  ∀ (k : nat) (mask : ndarray Z) (p : nat),
    size_of (shape mask) ≠ 0%nat →
    (3 * p + 2 < length (data mask))%nat →
    ∃ mask', draw_labels mode r k colors mask = Return mask'
      ∧ ((∀ ch, (ch < 3)%nat →
            data mask' !! (3 * p + ch)%nat = data mask !! (3 * p + ch)%nat)
         ∨ ∃ (i : nat) (c : rgb), colors !! i = Some c
             ∧ ∀ ch, (ch < 3)%nat →
                 data mask' !! (3 * p + ch)%nat = Some (saturate_u8 (channel c ch))).
Proof.
  intros Hsh. induction colors as [|c0 rest IH]; intros k mask p Hnonempty Hlen.
  - exists mask. split; [done | by left].
  - cbn [draw_labels]. rewrite (findContours_2d _ _ _ _ _ Hsh).
    cbn [mbind outcome_bind obind].
    rewrite drawContours_nonempty by exact Hnonempty.
    match goal with
    | |- context [paint mask ?cs c0] => set (region := cs)
    end.
    destruct (IH (S k) (paint mask region c0) p Hnonempty) as (mask' & Hrun & Hcase).
    { unfold paint. cbn [data]. by rewrite length_imap. }
    exists mask'. split; [exact Hrun |].
    destruct Hcase as [Hkeep | (i & c & Hi & Hpaint)].
    + destruct (paint_pixel mask region c0 p Hlen) as [[_ Hset] | Hsame].
      * right. exists 0%nat, c0. split; [done |]. intros ch Hch.
        by rewrite Hkeep, Hset.
      * left. intros ch Hch. by rewrite Hkeep, Hsame.
    + right. by exists (S i), c.
Qed.

Lemma draw_labels_covers (mode : RetrievalModes) (r : ndarray Z) (H W : nat)
    (colors : list rgb) :
  shape r = [H; W] →
  ∀ (k : nat) (mask : ndarray Z) (p : nat) (v : Z),
    size_of (shape mask) ≠ 0%nat →
    (3 * p + 2 < length (data mask))%nat →
    data r !! p = Some v →
    Z.of_nat k ≤ v →
    (Z.to_nat v - k < length colors)%nat →
    ∃ mask' (i : nat) (c : rgb),
      draw_labels mode r k colors mask = Return mask'
      ∧ (Z.to_nat v - k ≤ i)%nat
      ∧ colors !! i = Some c
      ∧ ∀ ch, (ch < 3)%nat →
          data mask' !! (3 * p + ch)%nat = Some (saturate_u8 (channel c ch)).
Proof.
  intros Hsh. induction colors as [|c0 rest IH];
    intros k mask p v Hnonempty Hlen Hp Hk Hv.
  - cbn in Hv. lia.
  - assert (Hlen1 : ∀ cs, (3 * p + 2 < length (data (paint mask cs c0)))%nat).
    { intros cs. unfold paint. cbn [data]. by rewrite length_imap. }
    destruct (decide (v = Z.of_nat k)) as [-> | Hne].
    + cbn [draw_labels]. rewrite (findContours_2d _ _ _ _ _ Hsh).
      cbn [mbind outcome_bind obind].
      rewrite drawContours_nonempty by exact Hnonempty.
      pose proof (region_covers mode r H W k p Hp) as Hcov.
      match goal with
      | |- context [paint mask ?cs c0] => set (region := cs) in *
      end.
      destruct (draw_labels_pixel mode r H W rest Hsh (S k)
                  (paint mask region c0) p Hnonempty (Hlen1 region))
        as (mask' & Hrun & Hcase).
      destruct Hcase as [Hkeep | (i & c & Hi & Hpaint)].
      * exists mask', 0%nat, c0. repeat split; [done | lia |].
        intros ch Hch. rewrite (Hkeep ch Hch).
        destruct (paint_pixel mask region c0 p Hlen) as [[_ Hset] | Hsame];
          [by apply Hset |].
        rewrite paint_paints; [by rewrite mod3 | lia | by rewrite div3].
      * exists mask', (S i), c. repeat split; [done | lia | done | done].
    + cbn [draw_labels]. rewrite (findContours_2d _ _ _ _ _ Hsh).
      cbn [mbind outcome_bind obind].
      rewrite drawContours_nonempty by exact Hnonempty.
      match goal with
      | |- context [paint mask ?cs c0] => set (region := cs)
      end.
      destruct (IH (S k) (paint mask region c0) p v Hnonempty (Hlen1 region) Hp)
        as (mask' & i & c & Hrun & Hge & Hi & Hpaint); [lia | cbn in Hv; lia |].
      exists mask', (S i), c. repeat split; [done | lia | done | done].
Qed.

(** X12.  For an accepted result with pixels (H and W not 0) and either
    value of [remove_holes], a pixel whose value, converted to an unsigned
    8-bit integer, is the index of a colormap row ends with the converted
    colour of a row of that index or a later one: its own class draws it,
    and only classes drawn later can draw over it. *)
Theorem accepted_input_painted (result : ndarray Z) (colormap : colormap_t)
    (remove_holes : bool) (H W : nat) :
  (shape result = [H; W] ∧ H ≠ 1%nat) ∨ shape result = [1%nat; H; W] →
  H ≠ 0%nat → W ≠ 0%nat →
  (n_unique result ≤ length colormap)%nat →
  ∃ mask, segmentation_map_to_image result colormap remove_holes = Return mask
    ∧ ∀ (i j : nat) (v : Z), (i < H)%nat → (j < W)%nat →
        data result !! (i * W + j)%nat = Some v →
        v mod 256 < Z.of_nat (length colormap) →
        ∃ (k : nat) (c : rgb),
          (Z.to_nat (v mod 256) ≤ k)%nat
          ∧ colormap !! k = Some c
          ∧ pixel W mask i j
            = Some (saturate_u8 c.1.1, saturate_u8 c.1.2, saturate_u8 c.2).
Proof.
  intros Hshape HH HW Hle.
  rewrite (accepted_reaches_loop _ _ _ _ _ Hshape Hle).
  set (mode := if remove_holes then RETR_EXTERNAL else RETR_TREE).
  set (r := astype_uint8 (mk_ndarray [H; W] (data result))).
  assert (Hnonempty : size_of (shape (zeros3 H W)) ≠ 0%nat).
  { unfold zeros3. cbn [shape]. rewrite size_of_3. nia. }
  destruct (draw_labels_spec mode r H W colormap eq_refl 0%nat (zeros3 H W) Hnonempty)
    as (mask & Hrun & _).
  exists mask. split; [exact Hrun |].
  intros i j v Hi Hj Hv Hrow.
  assert (Hr : data r !! (i * W + j)%nat = Some (v mod 256)).
  { unfold r, astype_uint8. cbn [data]. by rewrite list_lookup_fmap, Hv. }
  assert (Hin : (i * W + j < H * W)%nat) by nia.
  pose proof (Z.mod_pos_bound v 256 ltac:(lia)) as Hmod.
  destruct (draw_labels_covers mode r H W colormap eq_refl 0%nat (zeros3 H W)
              (i * W + j)%nat (v mod 256) Hnonempty)
    as (mask2 & k & c & Hrun2 & Hk & Hc & Hpaint); try done.
  - unfold zeros3. cbn [data]. rewrite length_replicate. lia.
  - lia.
  - lia.
  - rewrite Hrun in Hrun2. injection Hrun2 as <-.
    exists k, c. split; [lia |]. split; [done |].
    unfold pixel.
    pose proof (Hpaint 0%nat ltac:(lia)) as H0.
    pose proof (Hpaint 1%nat ltac:(lia)) as H1.
    pose proof (Hpaint 2%nat ltac:(lia)) as H2.
    replace (3 * (i * W + j) + 0)%nat with (3 * (i * W + j))%nat in H0 by lia.
    replace (3 * (i * W + j) + 1)%nat with (S (3 * (i * W + j)))%nat in H1 by lia.
    replace (3 * (i * W + j) + 2)%nat with (S (S (3 * (i * W + j))))%nat in H2 by lia.
    by rewrite H0, H1, H2.
Qed.

Lemma accepted_input_painted_witness :
  ∃ mask k c,
    segmentation_map_to_image (mk_ndarray [3; 3]%nat [1; 1; 1; 1; 0; 1; 1; 1; 1])
      [(10, 20, 30); (255, 0, 0)] true = Return mask
    ∧ (0 ≤ k)%nat ∧ [(10, 20, 30); (255, 0, 0)] !! k = Some c
    ∧ pixel 3 mask 1 1 = Some (saturate_u8 c.1.1, saturate_u8 c.1.2, saturate_u8 c.2).
Proof.
  destruct (accepted_input_painted (mk_ndarray [3; 3]%nat [1; 1; 1; 1; 0; 1; 1; 1; 1])
              [(10, 20, 30); (255, 0, 0)] true 3%nat 3%nat)
    as (mask & Hrun & Hpix).
  - left. split; [reflexivity | lia].
  - lia.
  - lia.
  - vm_compute. lia.
  - destruct (Hpix 1%nat 1%nat 0) as (k & c & Hk & Hc & Hp);
      [lia | lia | reflexivity | reflexivity |].
    exists mask, k, c. repeat split; try done.
Defined.

End SegmentationMore.

(** ** More on download_file and download_ir_model *)

Module FilesMore.
Import Files FilesFacts.
Local Open Scope string_scope.
Local Open Scope list_scope.

(** *** Nothing is ever removed *)

Lemma extends_refl (w : World) : extends w w.
Proof. repeat split; try done. exists []. by rewrite app_nil_r. Qed.

Lemma extends_trans (w1 w2 w3 : World) : extends w1 w2 → extends w2 w3 → extends w1 w3.
Proof.
  intros (Hu1 & Hr1 & Hc1 & Hd1 & Hf1 & l1 & Hl1) (Hu2 & Hr2 & Hc2 & Hd2 & Hf2 & l2 & Hl2).
  repeat split; try congruence; auto.
  exists (l1 ++ l2). by rewrite Hl2, Hl1, app_assoc.
Qed.

Lemma extends_event (w : World) (e : event) : extends w (with_event w e).
Proof. repeat split; try done. by exists [e]. Qed.

Lemma keeps_ret {A} (a : A) : keeps (mret a : M A).
Proof. intros w o w' [= <- <-]. apply extends_refl. Qed.

Lemma keeps_raise {A} (e : exn) : keeps (raise e : M A).
Proof. intros w o w' [= <- <-]. apply extends_refl. Qed.

Lemma keeps_bind {A B} (m : M A) (k : A → M B) :
  keeps m → (∀ a, keeps (k a)) → keeps (m ≫= k).
Proof.
  intros Hm Hk w o w'. unfold mbind, M_bind.
  destruct (m w) as [[a | e] w1] eqn:E; intros Hrun.
  - eapply extends_trans; [by eapply Hm | by eapply Hk].
  - injection Hrun as <- <-. by eapply Hm.
Qed.

Lemma keeps_try {A} (m : M A) (h : Z → string → M A) :
  keeps m → (∀ code msg, keeps (h code msg)) → keeps (try_except_HTTPError m h).
Proof.
  intros Hm Hh w o w'. unfold try_except_HTTPError.
  destruct (m w) as [[a | e] w1] eqn:E.
  - intros [= <- <-]. by eapply Hm.
  - destruct e; try (intros [= <- <-]; by eapply Hm).
    intros Hrun. eapply extends_trans; [by eapply Hm | by eapply Hh].
Qed.

Lemma keeps_urlopen (url : string) : keeps (urlopen url).
Proof.
  intros w o w'. unfold urlopen.
  destruct (remote w url); intros [= <- <-];
    [apply extends_event | apply extends_refl | apply extends_refl].
Qed.

Lemma keeps_pure {A} (f : World → outcome A) : keeps (λ w, (f w, w)).
Proof. intros w o w' [= <- <-]. apply extends_refl. Qed.

Lemma keeps_log_event (e : World → event) : keeps (log_event e).
Proof. intros w o w' [= <- <-]. apply extends_event. Qed.

(** [mkdir] only adds directories where there was nothing. *)
Lemma mkdir_rev_adds (rp : list string) (f f' : list string → option node) :
  mkdir_rev f rp = Return f' → ∀ q, f q ≠ None → f' q = f q.
Proof.
  revert f'. induction rp as [|c rparent IH]; intros f' Hrun q Hq.
  - cbn in Hrun. by injection Hrun as <-.
  - cbn [mkdir_rev] in Hrun.
    destruct (lookup_abs f (rev (c :: rparent))) as [[content|]|] eqn:Hself;
      [discriminate Hrun | by injection Hrun as <- |].
    cbn [rev] in Hself. rewrite lookup_abs_snoc in Hself.
    assert (Hupd : ∀ g, g q = f q → update g (rev (c :: rparent)) Dir q = f q).
    { intros g Hg. unfold update. cbn [rev].
      destruct (decide (q = rev rparent ++ [c])) as [-> | _]; [by rewrite Hself in Hq | done]. }
    destruct (lookup_abs f (rev rparent)) as [[content|]|] eqn:Hparent;
      [discriminate Hrun | injection Hrun as <-; by apply Hupd |].
    destruct (mkdir_rev f rparent) as [f1 | e] eqn:Hrec; [| discriminate Hrun].
    cbn [mbind outcome_bind obind] in Hrun. injection Hrun as <-.
    apply Hupd. by apply (IH f1).
Qed.

Lemma keeps_mkdir (p : Path) : keeps (mkdir p).
Proof.
  intros w o w'. unfold mkdir.
  destruct (mkdir_rev (fs w) (rev (resolve_comps w p))) as [f' | e] eqn:Hrun;
    intros [= <- <-]; [| apply extends_refl].
  pose proof (mkdir_rev_adds _ _ _ Hrun) as Hadd.
  repeat split; cbn [fs with_fs].
  - intros q Hq. rewrite Hadd; [done | by rewrite Hq].
  - intros q [c Hq]. exists c. rewrite Hadd; [done | by rewrite Hq].
  - exists []. cbn. by rewrite app_nil_r.
Qed.

Lemma keeps_write_file (p : Path) (content : list Byte.byte) : keeps (write_file p content).
Proof.
  intros w o w'. unfold write_file.
  set (t := resolve_comps w p).
  destruct (lookup_abs (fs w) t) as [[c|]|] eqn:Hself;
    try (intros [= <- <-]; apply extends_refl);
    (destruct (lookup_abs (fs w) (removelast t)) as [[c'|]|];
     intros [= <- <-]; try apply extends_refl).
  - repeat split; cbn [fs with_fs]; [| | exists []; cbn; by rewrite app_nil_r].
    + intros q Hq. unfold update. destruct (decide (q = t)) as [-> | _]; [| done].
      destruct t; [done |]. cbn in Hself. congruence.
    + intros q [c0 Hq]. unfold is_file, update.
      destruct (decide (q = t)); eauto.
  - repeat split; cbn [fs with_fs]; [| | exists []; cbn; by rewrite app_nil_r].
    + intros q Hq. unfold update. destruct (decide (q = t)) as [-> | _]; [| done].
      destruct t; [done |]. cbn in Hself. congruence.
    + intros q [c0 Hq]. unfold is_file, update.
      destruct (decide (q = t)); eauto.
Qed.

Lemma keeps_urlretrieve (url : string) (filename : Path) : keeps (urlretrieve url filename).
Proof.
  unfold urlretrieve.
  apply keeps_bind; [apply keeps_urlopen |]. intros r.
  apply keeps_bind; [apply keeps_write_file |]. intros _.
  apply keeps_bind; [apply keeps_log_event |]. intros _.
  destruct (content_length r) as [size|]; [| apply keeps_ret].
  destruct (decide _); [apply keeps_raise | apply keeps_ret].
Qed.

Lemma keeps_download_file (url : string) (filename directory : option string)
    (show_progress silent : bool) :
  keeps (download_file url filename directory show_progress silent).
Proof.
  unfold download_file.
  apply keeps_bind.
  - apply keeps_try; [| intros code msg; apply keeps_raise].
    apply keeps_bind; [apply keeps_urlopen |]. intros r.
    apply keeps_bind; [| intros f; apply keeps_ret].
    destruct filename; [apply keeps_ret | apply keeps_pure].
  - intros [urlobject fn].
    destruct (decide _); [apply keeps_raise |].
    apply keeps_bind.
    + destruct directory as [d|]; [| apply keeps_ret].
      apply keeps_bind; [apply keeps_mkdir | intros _; apply keeps_ret].
    + intros target.
      apply keeps_bind; [apply keeps_pure |]. intros present.
      apply keeps_bind.
      * destruct present; [| apply keeps_ret].
        apply keeps_bind; [| intros sz; apply keeps_ret].
        unfold st_size. intros w o w'.
        destruct (lookup w target) as [[c|]|]; intros [= <- <-]; apply extends_refl.
      * intros stale. apply keeps_bind; [| intros _; apply keeps_pure].
        destruct stale.
        -- apply keeps_bind; [apply keeps_urlretrieve |]. intros _.
           apply keeps_bind; [| intros _; apply keeps_ret].
           unfold st_size. intros w o w'.
           destruct (lookup w target) as [[c|]|]; intros [= <- <-]; apply extends_refl.
        -- destruct silent; [apply keeps_ret |].
           intros w o w' [= <- <-]. apply extends_event.
Qed.

(** X13.  Whatever the arguments and however the call ends, [download_file]
    and [download_ir_model] never remove anything: every directory is still
    a directory and every file still a file afterwards, the current
    directory is the same, and the log of requests has only grown. *)
Theorem downloads_keep_the_world (w : World) (url : string)
    (filename directory : option string) (show_progress silent : bool) :
  extends w (download_file url filename directory show_progress silent w).2
  ∧ extends w (download_ir_model url directory w).2.
Proof.
  split.
  - destruct (download_file url filename directory show_progress silent w)
      as [o w'] eqn:E.
    by apply (keeps_download_file _ _ _ _ _ _ _ _ E).
  - destruct (download_ir_model url directory w) as [o w'] eqn:E.
    revert E. apply keeps_bind; [apply keeps_download_file |]. intros p.
    apply keeps_bind; [apply keeps_download_file | intros _; apply keeps_ret].
Qed.

(** *** What a retrieval leaves behind *)

(** X14.  A file that is missing, or whose size differs from the announced
    one, is fetched: when the URL opens with a body that is not shorter
    than announced, the file name is plain and the directory (named without
    [".."]) can be made, [download_file] returns the resolved path, the
    file then holds exactly what is read of the body (the body cut at the
    announced length, which is the whole body when the two agree or no
    length is announced), the directory exists, and exactly one retrieval
    has been added to the log. *)
Theorem download_file_fetches (w : World) (url : string)
    (filename directory : option string) (show_progress silent : bool) (r : Response) :
  remote w url = Responds r →
  let n := default (default_filename w url r) filename in
  let base := resolve_comps w (dir_path directory) in
  plain_name n →
  no_dotdot directory →
  dir_available (fs w) directory base →
  fs w (base ++ [n]) ≠ Some Dir →
  (∀ c, fs w (base ++ [n]) = Some (File c) →
        Z.of_nat (length c) ≠ default 0%Z (content_length r)) →
  complete r →
  ∃ w', download_file url filename directory show_progress silent w
        = (Return (resolve w (target_path directory n)), w')
    ∧ fs w' (base ++ [n]) = Some (File (received r))
    ∧ (∀ size, content_length r = Some size → (0 ≤ size)%Z →
         received r = take (Z.to_nat size) (body r))
    ∧ ((content_length r = None
        ∨ content_length r = Some (Z.of_nat (length (body r)))) →
       received r = body r)
    ∧ lookup_abs (fs w') base = Some Dir
    ∧ retrievals (log w') = retrievals (log w) ++ [Retrieved url (base ++ [n])].
Proof.
  intros Hr n base Hplain _ Havail Hnd Hstale Hcomplete.
  destruct (download_file_retrieves w url filename directory show_progress silent r
              Hr Hplain Havail Hnd Hstale)
    as (f' & w' & Hrun & _ & _ & Hfs & Hbase & Hlog & _).
  exists w'. split; [| split; [| split; [| split; [| split; [exact Hbase |]]]]].
  - rewrite Hrun. f_equal.
    destruct (content_length r) as [size|] eqn:Hsize; [| done].
    rewrite decide_False; [done |]. intros [Hpos Hlt].
    apply (received_short r size Hsize Hpos) in Hlt.
    specialize (Hcomplete size Hsize). lia.
  - rewrite Hfs. unfold update. by rewrite decide_True.
  - intros size Hsize Hpos. unfold received. rewrite Hsize. by rewrite decide_True.
  - intros Hcase. apply received_all. intros size Hsize.
    destruct Hcase as [Hnone | Hsame]; rewrite Hsize in *; [done |].
    injection Hsame as ->. lia.
  - rewrite Hlog. apply retrievals_fetch.
Qed.

Lemma download_file_fetches_witness :
  ∃ w', download_file "http://host/data/readme.md" None (Some "docs/new") true false
          (mk_World (λ _, "/data/readme.md")
             (λ _, Responds (mk_Response None (Some 2%Z) [x01; x02]%byte))
             ["home"]
             (λ p, if decide (p = ["home"]) then Some Dir else None)
             [])
        = (Return (mk_Path "/" ["home"; "docs"; "new"; "readme.md"]), w')
    ∧ fs w' ["home"; "docs"; "new"; "readme.md"] = Some (File [x01; x02]%byte)
    ∧ lookup_abs (fs w') ["home"; "docs"; "new"] = Some Dir.
Proof.
  destruct (download_file_fetches
              (mk_World (λ _, "/data/readme.md")
                 (λ _, Responds (mk_Response None (Some 2%Z) [x01; x02]%byte))
                 ["home"]
                 (λ p, if decide (p = ["home"]) then Some Dir else None)
                 [])
              "http://host/data/readme.md" None (Some "docs/new") true false
              (mk_Response None (Some 2%Z) [x01; x02]%byte))
    as (w' & Hrun & Hfile & _ & Hall & Hdir & _).
  - reflexivity.
  - split; [reflexivity | discriminate].
  - intros d [= <-] Hin. vm_compute in Hin.
    repeat (apply elem_of_cons in Hin as [Hin | Hin]; [discriminate Hin |]).
    by apply elem_of_nil in Hin.
  - intros p c Hpre Hfile. destruct p as [|x p]; [discriminate Hfile |].
    cbn [lookup_abs fs] in Hfile.
    destruct (decide (x :: p = ["home"])); discriminate Hfile.
  - vm_compute. discriminate.
  - intros c Hc. vm_compute in Hc. discriminate Hc.
  - intros size [= <-]. vm_compute. discriminate.
  - exists w'. split; [exact Hrun |]. split; [| exact Hdir].
    pose proof (Hall (or_intror eq_refl)) as Hbody.
    rewrite Hbody in Hfile. exact Hfile.
Defined.





(** *** A second call *)




(** *** Failures *)

(** X18.  An HTTP error for the URL is reported by [download_file], and
    through it by [download_ir_model], as an Exception whose message holds
    the status code and the reason; nothing is written or logged, and
    [download_ir_model] does not ask for the weights. *)
Theorem http_error_reported (w : World) (url : string)
    (filename directory : option string) (show_progress silent : bool)
    (code : Z) (msg : string) :
  remote w url = FailsHTTP code msg →
  download_file url filename directory show_progress silent w
  = (Raise (Exception ("File downloading failed with error: "
                       +:+ pretty code +:+ " " +:+ msg)), w)
  ∧ download_ir_model url directory w
    = (Raise (Exception ("File downloading failed with error: "
                         +:+ pretty code +:+ " " +:+ msg)), w).
Proof.
  intros Hr. split; [by apply download_file_http_error |].
  unfold download_ir_model, mbind, M_bind.
  by rewrite (download_file_http_error _ _ _ _ _ _ _ _ Hr).
Qed.

Lemma http_error_reported_witness :
  download_file "http://host/gone.xml" None None true false
    (mk_World (λ _, "/gone.xml") (λ _, FailsHTTP 404 "Not Found") [] (λ _, None) [])
  = (Raise (Exception "File downloading failed with error: 404 Not Found"),
     mk_World (λ _, "/gone.xml") (λ _, FailsHTTP 404 "Not Found") [] (λ _, None) []).
Proof.
  exact (proj1 (http_error_reported
                  (mk_World (λ _, "/gone.xml") (λ _, FailsHTTP 404 "Not Found")
                     [] (λ _, None) [])
                  "http://host/gone.xml" None None true false 404 "Not Found"
                  eq_refl)).
Defined.






(** *** File names that are not given *)

Lemma split_slash_pieces (s c : string) :
  c ∈ split_slash s → split_slash c = [c].
Proof.
  revert c. induction s as [|ch s IH]; intros c Hc; cbn [split_slash] in Hc.
  - by apply list_elem_of_singleton in Hc as ->.
  - destruct (Ascii.eqb ch "/") eqn:Hch.
    + apply elem_of_cons in Hc as [-> | Hc]; [done | by apply IH].
    + destruct (split_slash s) as [|x xs] eqn:Hs.
      * apply list_elem_of_singleton in Hc as ->. cbn [split_slash]. by rewrite Hch.
      * apply elem_of_cons in Hc as [-> | Hc].
        -- cbn [split_slash]. rewrite Hch, (IH x); [done | left].
        -- apply IH. by right.
Qed.

Lemma one_piece_no_root (c : string) :
  c ≠ "" → split_slash c = [c] → parse_root c = "".
Proof.
  intros Hne Hone. destruct c as [|ch c]; [done |].
  cbn [split_slash] in Hone. destruct (Ascii.eqb ch "/") eqn:Hch.
  - discriminate Hone.
  - apply Ascii.eqb_neq in Hch. unfold parse_root.
    destruct ch as [[] [] [] [] [] [] [] []]; try reflexivity. by destruct Hch.
Qed.

(** The last component of any path is a path of at most one part. *)
Lemma name_is_one_part (s : string) :
  (length (parts (Path_of (name (Path_of s)))) ≤ 1)%nat.
Proof.
  unfold name. cbn [comps Path_of].
  destruct (last (filter (λ c, c ≠ "" ∧ c ≠ ".") (split_slash s))) as [c|] eqn:Hlast;
    cbn [default]; [| vm_compute; lia].
  assert (Hin : c ∈ filter (λ c, c ≠ "" ∧ c ≠ ".") (split_slash s)).
  { apply list_elem_of_lookup. rewrite last_lookup in Hlast. eauto. }
  apply list_elem_of_filter in Hin as [[Hne Hdot] Hin].
  pose proof (split_slash_pieces _ _ Hin) as Hone.
  unfold Path_of, parts. cbn [root comps id].
  rewrite (one_piece_no_root c Hne Hone), Hone.
  destruct (decide ("" = "")) as [_ | Habs]; [| done].
  rewrite filter_cons_True by done. cbn. lia.
Qed.

(** X21.  A file name that [download_file] takes from the path of the URL,
    as it does when no [filename] is given and the server announces none,
    always passes the test on the number of path components. *)
Theorem url_filename_passes_check (w : World) (url : string) (r : Response) :
  get_filename r = None ∨ get_filename r = Some "" →
  default_filename w url r = name (Path_of (urlparse_path w url))
  ∧ (length (parts (Path_of (default_filename w url r))) ≤ 1)%nat.
Proof.
  intros Hnone.
  assert (Hdef : default_filename w url r = name (Path_of (urlparse_path w url))).
  { unfold default_filename, or_else. by destruct Hnone as [-> | ->]. }
  split; [exact Hdef |]. rewrite Hdef. apply name_is_one_part.
Qed.

Lemma url_filename_passes_check_witness :
  default_filename
    (mk_World (λ _, "/openvinotoolkit/raw/main/model/segmentation.xml")
       (λ _, Unreachable) [] (λ _, None) [])
    "https://host/openvinotoolkit/raw/main/model/segmentation.xml"
    (mk_Response None None [])
  = "segmentation.xml".
Proof.
  rewrite (proj1 (url_filename_passes_check _ _ (mk_Response None None [])
                    (or_introl eq_refl))).
  reflexivity.
Defined.

(** X22.  A file name announced by the server is tested like a given one:
    when no [filename] is given and the announced name has more than one
    path component, [download_file] raises ValueError after opening the
    URL, without retrieving or writing anything. *)
Theorem announced_filename_rejected (w : World) (url f : string)
    (directory : option string) (show_progress silent : bool) (r : Response) :
  remote w url = Responds r →
  get_filename r = Some f →
  (1 < length (parts (Path_of f)))%nat →
  download_file url None directory show_progress silent w
  = (Raise ValueError, with_event w (Opened url)).
Proof.
  intros Hr Hf Hparts. apply (download_file_opened _ _ _ _ _ _ r Hr).
  cbn [default]. unfold default_filename, or_else. rewrite Hf.
  destruct (decide (f = "")) as [-> | _]; [| done].
  vm_compute in Hparts. lia.
Qed.

Lemma announced_filename_rejected_witness :
  download_file "http://host/get?id=7" None None true false
    (mk_World (λ _, "/get")
       (λ _, Responds (mk_Response (Some "../etc/model.bin") None []))
       ["home"] (λ _, None) [])
  = (Raise ValueError,
     with_event
       (mk_World (λ _, "/get")
          (λ _, Responds (mk_Response (Some "../etc/model.bin") None []))
          ["home"] (λ _, None) [])
       (Opened "http://host/get?id=7")).
Proof.
  apply (announced_filename_rejected _ _ "../etc/model.bin" _ _ _
           (mk_Response (Some "../etc/model.bin") None [])).
  - reflexivity.
  - reflexivity.
  - vm_compute. lia.
Defined.

End FilesMore.

(** ** The progress bar of a download *)

Module ProgressBarFacts.
Import ProgressBar.
Local Open Scope Z_scope.

Lemma report_blocks_S (self : tqdm) (k : nat) (bs size : Z) :
  report_blocks self (S k) bs size
  = update_to (report_blocks self k bs size) (Z.of_nat (S k)) bs size.
Proof.
  unfold report_blocks. rewrite (seq_S (S k) 0), foldl_app. reflexivity.
Qed.

Lemma report_blocks_enabled (self : tqdm) (k : nat) (bs size : Z) :
  disable self = false → disable (report_blocks self k bs size) = false.
Proof.
  intros Hen. induction k as [|k IH].
  - unfold report_blocks, update_to, tqdm_update. cbn [seq foldl].
    destruct (decide _); rewrite ?Hen; cbn [disable]; done.
  - rewrite report_blocks_S. unfold update_to, tqdm_update.
    destruct (decide _); rewrite ?IH; cbn [disable]; done.
Qed.

(** X23.  While a file of announced size [size] arrives in blocks of
    [bs] bytes, an enabled bar counts whole blocks and never more than the
    announced size: after block number [k] it stands at
    [bs * min k (size / bs)], whatever it showed before. *)
Theorem report_blocks_counter (self : tqdm) (k : nat) (bs size : Z) :
  disable self = false → 0 < bs → 0 ≤ size →
  n (report_blocks self k bs size) = bs * Z.min (Z.of_nat k) (size / bs)
  ∧ n (report_blocks self k bs size) ≤ size.
Proof.
  intros Hen Hbs Hsize.
  assert (Hq : 0 ≤ size / bs) by (apply Z.div_pos; lia).
  assert (Hle : bs * (size / bs) ≤ size) by (apply Z.mul_div_le; lia).
  assert (Hn : n (report_blocks self k bs size) = bs * Z.min (Z.of_nat k) (size / bs)).
  { induction k as [|k IH].
    - unfold report_blocks, update_to, tqdm_update. cbn [seq foldl].
      rewrite decide_True by lia. rewrite Hen. cbn [n]. lia.
    - rewrite report_blocks_S. unfold update_to, tqdm_update.
      rewrite (report_blocks_enabled self k bs size Hen).
      destruct (decide (Z.of_nat (S k) * bs ≤ size)) as [Hfit | Hover].
      + cbn [n].
        assert (Z.of_nat (S k) ≤ size / bs) by (apply Z.div_le_lower_bound; lia).
        rewrite Z.min_l by done. lia.
      + rewrite IH.
        assert (size / bs < Z.of_nat (S k)).
        { apply Z.div_lt_upper_bound; lia. }
        f_equal. lia. }
  split; [exact Hn |]. rewrite Hn. nia.
Qed.

Lemma report_blocks_counter_witness :
  n (report_blocks (DownloadProgressBar 20000 false) 3 8192 20000) = 16384.
Proof.
  rewrite (proj1 (report_blocks_counter (DownloadProgressBar 20000 false) 3 8192 20000
                    eq_refl ltac:(lia) ltac:(lia))).
  reflexivity.
Defined.

(** X24.  A disabled bar, and any bar when the size is unknown (urlretrieve
    then reports a negative size), is left exactly as it was by all the
    block reports. *)
Theorem report_blocks_idle (self : tqdm) (k : nat) (bs size : Z) :
  disable self = true ∨ (size < 0 ∧ 0 ≤ bs) →
  report_blocks self k bs size = self.
Proof.
  intros Hidle. induction k as [|k IH].
  - unfold report_blocks, update_to, tqdm_update. cbn [seq foldl].
    destruct Hidle as [Hdis | [Hneg Hbs]].
    + rewrite Hdis. by destruct (decide _).
    + rewrite decide_False by lia. done.
  - rewrite report_blocks_S, IH. unfold update_to, tqdm_update.
    destruct Hidle as [Hdis | [Hneg Hbs]].
    + rewrite Hdis. by destruct (decide _).
    + rewrite decide_False by nia. done.
Qed.

Lemma report_blocks_idle_witness :
  report_blocks (DownloadProgressBar 0 false) 5 8192 (-1) = DownloadProgressBar 0 false.
Proof.
  apply report_blocks_idle. right. lia.
Defined.

End ProgressBarFacts.

(** ** More on the checks *)

Module ChecksMore.
Import Checks ChecksFacts.
Local Open Scope string_scope.

Lemma prefix_split (sub s : string) :
  String.prefix sub s = true → ∃ post, s = sub +:+ post.
Proof.
  revert s. induction sub as [|c sub IH]; intros s Hp.
  - by exists s.
  - destruct s as [|d s]; [discriminate Hp |]. simpl in Hp.
    destruct (ascii_dec c d) as [-> | _]; [| discriminate Hp].
    destruct (IH s Hp) as [post ->]. by exists post.
Qed.

Lemma prefix_app (sub post : string) : String.prefix sub (sub +:+ post) = true.
Proof.
  induction sub as [|c sub IH]; [by destruct post |].
  simpl. destruct (ascii_dec c c); [exact IH | done].
Qed.

Lemma contains_prefix (sub s : string) :
  String.prefix sub s = true → contains sub s = true.
Proof.
  intros Hp. destruct s; unfold contains; fold contains; by rewrite Hp.
Qed.

(** [contains] is Python's [in] on strings: [sub] occurs in [s] exactly when
    [s] is some text, then [sub], then some text. *)
Lemma contains_spec (sub s : string) :
  contains sub s = true ↔ ∃ pre post, s = pre +:+ (sub +:+ post).
Proof.
  split.
  - induction s as [|c s IH]; cbn [contains]; intros H;
      apply orb_true_iff in H as [Hp | Hrest].
    + destruct (prefix_split _ _ Hp) as [post ->]. by exists "", post.
    + discriminate Hrest.
    + destruct (prefix_split _ _ Hp) as [post ->]. by exists "", post.
    + destruct (IH Hrest) as (pre & post & ->). by exists (String c pre), post.
  - intros (pre & post & ->). induction pre as [|c pre IH].
    + change ("" +:+ (sub +:+ post)) with (sub +:+ post).
      apply contains_prefix, prefix_app.
    + change (String c pre +:+ (sub +:+ post)) with (String c (pre +:+ (sub +:+ post))).
      unfold contains; fold contains. rewrite IH. apply orb_true_r.
Qed.

(** X25.  [check_openvino_version] returns True, showing nothing, exactly
    when the asked version occurs somewhere inside the installed version
    string; otherwise it shows one alert of class danger and returns False.
    It never raises.  The test is on text: the version may occur anywhere
    in the installed string. *)
Theorem check_openvino_version_spec (installed_version version : string) (s : Shown) :
  ∃ (b : bool) (s' : Shown),
    check_openvino_version installed_version version s = (Return b, s')
    ∧ (b = true ↔ ∃ pre post, installed_version = pre +:+ (version +:+ post))
    ∧ (b = true → s' = s)
    ∧ (b = false →
       s' = (s ++ [alert_html "danger"
                     (version_message installed_version version)])%list).
Proof.
  unfold check_openvino_version.
  destruct (contains version installed_version) eqn:Hc; cbn [negb].
  - exists true, s. repeat split; try done.
    intros _. by apply contains_spec.
  - exists false, (s ++ [alert_html "danger"
                          (version_message installed_version version)])%list.
    unfold mbind, D_bind. rewrite NotebookAlert_init_shows.
    repeat split; try done.
    intros Hex. apply contains_spec in Hex. congruence.
Qed.

(** X26.  Constructing a [DeviceNotFoundAlert] never raises, whatever
    devices are available, none included: it shows exactly one alert, of
    class warning, and does so without testing whether the device is in
    fact missing. *)
Theorem DeviceNotFoundAlert_always_shows (ie : IECore) (device : string) (s : Shown) :
  ∃ alert : NotebookAlert,
    DeviceNotFoundAlert_init ie device s
    = (Return alert, (s ++ [alert_html "warning" (message alert)])%list)
    ∧ alert_class alert = "warning"
    ∧ message alert = device_warning ie device.
Proof.
  exists (mk_NotebookAlert (device_warning ie device) "warning").
  by rewrite DeviceNotFoundAlert_init_shows.
Qed.

End ChecksMore.
